(** * download-logos-simple.py: a shallow embedding and its properties

    The script reads a list of token records, and for every record with a
    logo URL fetches the logo over HTTP (retrying with four User-Agent
    values) into the directory [./token-logo], counting downloads, skips and
    failures.

    Modelling conventions.
    - A Python [str] is a [string]; one [ascii] stands for one character
      (code points below 256).  Indices are [Z], as Python's [int], and
      [find]/[rfind] answer [-1] when nothing is found.
    - The library functions the script calls ([re.sub] with a one-character
      class, [os.path.splitext], [urllib.parse.urlparse]) are transcribed
      from CPython 3.11 ([genericpath._splitext], [urllib/parse.py]).
    - Exceptions are a [Raise] result; the only one that the script does not
      catch is the [ValueError] of [urlparse].
    - The output directory is a finite map from file name to content; the
      console, the sleeps and the HTTP requests are recorded, in order, in a
      trace of events; the remote servers are an oracle from the requests
      already made and the current request to an outcome. *)

From Stdlib Require Import String Ascii ZArith List Lia Bool.
From Stdlib.Strings Require Import Byte.
From stdpp Require Import gmap strings.
Import ListNotations.

Local Open Scope Z_scope.

(** ** Python [str] primitives *)

Module Str.

(** [s[n:]] and [s[:n]] for a non-negative [n]. *)
Fixpoint drop (n : nat) (s : string) : string :=
  match n, s with
  | O, _ => s
  | S _, EmptyString => EmptyString
  | S k, String _ r => drop k r
  end.

Fixpoint take (n : nat) (s : string) : string :=
  match n, s with
  | O, _ => EmptyString
  | S _, EmptyString => EmptyString
  | S k, String a r => String a (take k r)
  end.

(** Every slice bound of the program is non-negative, so Python's reading
    of a negative bound (counting from the end) is never exercised. *)
Definition from (i : Z) (s : string) : string := drop (Z.to_nat i) s.
Definition upto (i : Z) (s : string) : string := take (Z.to_nat i) s.
Definition slice (i j : Z) (s : string) : string := upto (j - i) (from i s).

(** [s.find(c)]: index of the first [c], or [-1]. *)
Fixpoint find (c : ascii) (s : string) : Z :=
  match s with
  | EmptyString => -1
  | String a r =>
      if Ascii.eqb a c then 0
      else let i := find c r in if i <? 0 then -1 else i + 1
  end.

(** [s.rfind(c)]: index of the last [c], or [-1]. *)
Fixpoint rfind (c : ascii) (s : string) : Z :=
  match s with
  | EmptyString => -1
  | String a r =>
      let i := rfind c r in
      if 0 <=? i then i + 1 else if Ascii.eqb a c then 0 else -1
  end.

(** [s.find(c, start)] for [0 <= start]. *)
Definition find_from (c : ascii) (s : string) (start : Z) : Z :=
  let i := find c (from start s) in
  if i <? 0 then -1 else start + i.

(** [c in s] *)
Definition contains (c : ascii) (s : string) : bool := 0 <=? find c s.

Fixpoint map (f : ascii -> ascii) (s : string) : string :=
  match s with
  | EmptyString => EmptyString
  | String a r => String (f a) (map f r)
  end.

Fixpoint all (p : ascii -> bool) (s : string) : bool :=
  match s with
  | EmptyString => true
  | String a r => p a && all p r
  end.

(** [s.replace(c, "")] *)
Fixpoint remove (c : ascii) (s : string) : string :=
  match s with
  | EmptyString => EmptyString
  | String a r => if Ascii.eqb a c then remove c r else String a (remove c r)
  end.

(** [s.lstrip(chars)], the set of characters given as a predicate. *)
Fixpoint lstrip (p : ascii -> bool) (s : string) : string :=
  match s with
  | EmptyString => EmptyString
  | String a r => if p a then lstrip p r else s
  end.

Definition code (c : ascii) : Z := Z.of_nat (nat_of_ascii c).

Definition in_range (lo hi c : ascii) : bool :=
  (code lo <=? code c) && (code c <=? code hi).

(** [c.lower()]: the ASCII capitals, and the capitals of the Latin-1
    block (U+00C0 to U+00DE, the multiplication sign U+00D7 apart), move
    up by 32; every other character below 256 is its own lower case. *)
Definition lower_char (c : ascii) : ascii :=
  if in_range "A" "Z" c
     || (in_range "192" "222" c && negb (Ascii.eqb c "215"))
  then ascii_of_nat (nat_of_ascii c + 32)
  else c.

Definition lower (s : string) : string := map lower_char s.

(** [s.partition(c)]: [(before, found, after)]. *)
Definition partition (c : ascii) (s : string) : string * bool * string :=
  let i := find c s in
  if i <? 0 then (s, false, EmptyString)
  else (upto i s, true, from (i + 1) s).

(** [s.rpartition(c)[2]]: what follows the last [c], or all of [s]. *)
Definition rpartition_tail (c : ascii) (s : string) : string :=
  from (rfind c s + 1) s.

Definition is_empty (s : string) : bool :=
  match s with EmptyString => true | _ => false end.

Definition startswith (c : ascii) (s : string) : bool :=
  match s with String a _ => Ascii.eqb a c | EmptyString => false end.

End Str.

(** ** Exceptions *)

Inductive exn : Type :=
| ValueError.

Inductive result (A : Type) : Type :=
| Ok (a : A)
| Raise (e : exn).
Arguments Ok {A} a.
Arguments Raise {A} e.

(** ** [sanitize_filename] *)

(** The character class [a-zA-Z0-9\-_.] of the regular expression. *)
Definition safe_char (c : ascii) : bool :=
  Str.in_range "a" "z" c || Str.in_range "A" "Z" c || Str.in_range "0" "9" c
  || Ascii.eqb c "-" || Ascii.eqb c "_" || Ascii.eqb c ".".

(** [re.sub(r'[^a-zA-Z0-9\-_.]', '_', filename)]: the pattern matches one
    character at a time, so the substitution is a map over the characters. *)
Definition sanitize_filename (filename : string) : string :=
  Str.map (fun c => if safe_char c then c else "_"%char) filename.

(** ** [os.path.splitext] (posixpath: [sep = '/'], no [altsep], [extsep = '.']) *)

(** The [while filenameIndex < dotIndex] loop of [genericpath._splitext];
    [n] is the number of iterations left, [dotIndex - filenameIndex]. *)
Fixpoint splitext_scan (p : string) (dotIndex filenameIndex : Z) (n : nat)
  : string * string :=
  match n with
  | O => (p, EmptyString)
  | S k =>
      if negb (String.eqb (Str.slice filenameIndex (filenameIndex + 1) p) ".")
      then (Str.upto dotIndex p, Str.from dotIndex p)
      else splitext_scan p dotIndex (filenameIndex + 1) k
  end.

Definition splitext (p : string) : string * string :=
  let sepIndex := Str.rfind "/" p in
  let dotIndex := Str.rfind "." p in
  if sepIndex <? dotIndex then
    let filenameIndex := sepIndex + 1 in
    splitext_scan p dotIndex filenameIndex (Z.to_nat (dotIndex - filenameIndex))
  else (p, EmptyString).

(** ** [urllib.parse.urlparse] *)

Section Urlparse.

(** [_check_bracketed_host]: whether the host between square brackets is
    an IPv6 literal (module [ipaddress]) or a well-formed IPvFuture
    address.  The two recognisers are outside the program and are taken
    as given. *)
Variable bracketed_host_ok : string -> bool.

Definition uses_params : list string :=
  [""; "ftp"; "hdl"; "prospero"; "http"; "imap"; "https"; "shttp"; "rtsp";
   "rtspu"; "sip"; "sips"; "mms"; "sftp"; "tel"]%string.

Definition scheme_char (c : ascii) : bool :=
  Str.in_range "a" "z" c || Str.in_range "A" "Z" c || Str.in_range "0" "9" c
  || Ascii.eqb c "+" || Ascii.eqb c "-" || Ascii.eqb c ".".

Definition ascii_alpha (c : ascii) : bool :=
  Str.in_range "a" "z" c || Str.in_range "A" "Z" c.

(** [_WHATWG_C0_CONTROL_OR_SPACE]: U+0000 to U+0020. *)
Definition c0_control_or_space (c : ascii) : bool := Str.code c <=? 32.

(** [_UNSAFE_URL_BYTES_TO_REMOVE]: tab, carriage return, line feed. *)
Definition remove_unsafe (url : string) : string :=
  Str.remove "010" (Str.remove "013" (Str.remove "009" url)).

Definition _splitparams (url : string) : string * string :=
  if Str.contains "/" url then
    let i := Str.find_from ";" url (Str.rfind "/" url) in
    if i <? 0 then (url, EmptyString)
    else (Str.upto i url, Str.from (i + 1) url)
  else
    let i := Str.find ";" url in
    (Str.upto i url, Str.from (i + 1) url).

Definition _splitnetloc (url : string) (start : Z) : string * string :=
  let step (delim : Z) (c : ascii) :=
    let wdelim := Str.find_from c url start in
    if 0 <=? wdelim then Z.min delim wdelim else delim in
  let delim :=
    fold_left step ["/"; "?"; "#"]%char (Z.of_nat (String.length url)) in
  (Str.slice start delim url, Str.from delim url).

Definition _check_bracketed_netloc (netloc : string) : result unit :=
  let hostname_and_port := Str.rpartition_tail "@" netloc in
  let '(before_bracket, have_open_br, bracketed) :=
    Str.partition "[" hostname_and_port in
  if have_open_br then
    if negb (Str.is_empty before_bracket) then Raise ValueError
    else
      let '(hostname, _, port) := Str.partition "]" bracketed in
      if negb (Str.is_empty port) && negb (Str.startswith ":" port)
      then Raise ValueError
      else if bracketed_host_ok hostname then Ok tt else Raise ValueError
  else
    let '(hostname, _, _) := Str.partition ":" hostname_and_port in
    if bracketed_host_ok hostname then Ok tt else Raise ValueError.

(** [urlsplit(url)], giving [(scheme, netloc, path)].  [_checknetloc]
    is left out: it raises only when the NFKC form of a non-ASCII netloc
    contains one of [/?#@:], which no character below 256 produces. *)
Definition urlsplit (url : string) : result (string * string * string) :=
  let url := Str.lstrip c0_control_or_space url in
  let url := remove_unsafe url in
  let i := Str.find ":" url in
  let '(scheme, url) :=
    if (0 <? i)
       && match url with String a _ => ascii_alpha a | EmptyString => false end
       && Str.all scheme_char (Str.upto i url)
    then (Str.lower (Str.upto i url), Str.from (i + 1) url)
    else (EmptyString, url) in
  let split_rest (netloc url : string) :=
    let url :=
      if Str.contains "#" url then Str.upto (Str.find "#" url) url else url in
    let url :=
      if Str.contains "?" url then Str.upto (Str.find "?" url) url else url in
    Ok (scheme, netloc, url) in
  if String.eqb (Str.upto 2 url) "//" then
    let '(netloc, url) := _splitnetloc url 2 in
    let lb := Str.contains "[" netloc in
    let rb := Str.contains "]" netloc in
    if (lb && negb rb) || (rb && negb lb) then Raise ValueError
    else if lb && rb then
      match _check_bracketed_netloc netloc with
      | Raise e => Raise e
      | Ok _ => split_rest netloc url
      end
    else split_rest netloc url
  else split_rest EmptyString url.

(** [urlparse(url).path] *)
Definition urlparse_path (url : string) : result string :=
  match urlsplit url with
  | Raise e => Raise e
  | Ok (scheme, _, url) =>
      if existsb (String.eqb scheme) uses_params && Str.contains ";" url
      then Ok (fst (_splitparams url))
      else Ok url
  end.

(** ** [get_extension_from_url] *)

Definition known_extensions : list string :=
  [".png"; ".jpg"; ".jpeg"; ".svg"; ".webp"; ".gif"]%string.

Definition get_extension_from_url (url : string) : result string :=
  match urlparse_path url with
  | Raise e => Raise e
  | Ok path =>
      let ext := snd (splitext path) in
      if Str.is_empty ext then Ok ".png"%string
      else if negb (existsb (String.eqb (Str.lower ext)) known_extensions)
           then Ok ".png"%string
           else Ok ext
  end.

End Urlparse.

(** ** The world: output directory, console, clock and network *)

Inductive message : Type :=
| MsgSkipNoUrl (filename : string)
| MsgAlreadyExists (safe_filename : string)
| MsgDownloading (url safe_filename : string)
| MsgDownloaded (safe_filename : string)
| MsgHttpStatus (url : string) (status : Z)
| MsgForbidden (url : string) (code : Z)
| MsgNotFound (url : string) (code : Z)
| MsgHttpError (url : string) (code : Z)
| MsgUrlError (url detail : string)
| MsgUnexpected (url detail : string)
| MsgStart (total : Z)
| MsgNoLogo (symbol : string)
| MsgProgress (processed total : Z)
| MsgSummary
| MsgSummaryDownloaded (n : Z)
| MsgSummarySkipped (n : Z)
| MsgSummaryFailed (n : Z)
| MsgTotalFiles (n : Z).

Record request : Type := Request {
  req_url : string;
  req_headers : list (string * string);
  req_timeout : Z
}.

(** What [response.read()] does on an open response. *)
Inductive body_read : Type :=
| ReadOk (data : list byte)
| ReadFails (detail : string).

(** What [urllib.request.urlopen] does with a request: it returns a
    response, or raises [HTTPError], [URLError] or something else. *)
Inductive outcome : Type :=
| Response (status : Z) (body : body_read)
| HTTPError (code : Z)
| URLError (reason : string)
| OtherError (detail : string).

Inductive event : Type :=
| Print (m : message)
| Sleep (milliseconds : Z)
| Urlopen (r : request).

Record world : Type := World {
  files : gmap string (list byte);
  events : list event
}.

(** The requests made so far, oldest first. *)
Fixpoint requests (evs : list event) : list request :=
  match evs with
  | [] => []
  | Urlopen r :: rest => r :: requests rest
  | _ :: rest => requests rest
  end.

(** The remote side: its answer may depend on the earlier requests. *)
Definition network : Type := list request -> request -> outcome.

(** ** The monad of the script: a world is threaded through, and an
    exception keeps the world reached when it was raised. *)

Definition M (A : Type) : Type := world -> result A * world.

Definition ret {A : Type} (a : A) : M A := fun w => (Ok a, w).

Definition bind {A B : Type} (c : M A) (k : A -> M B) : M B :=
  fun w =>
    match c w with
    | (Ok a, w') => k a w'
    | (Raise e, w') => (Raise e, w')
    end.

Notation "x <- c1 ;; c2" := (bind c1 (fun x => c2))
  (at level 100, c1 at next level, right associativity).
Notation "c1 ;; c2" := (bind c1 (fun _ => c2))
  (at level 100, right associativity).

Definition lift {A : Type} (r : result A) : M A := fun w => (r, w).

Definition emit (e : event) : M unit :=
  fun w => (Ok tt, World (files w) (events w ++ [e])).

Definition print (m : message) : M unit := emit (Print m).
Definition sleep (milliseconds : Z) : M unit := emit (Sleep milliseconds).

(** [filepath.exists()] *)
Definition file_exists (name : string) : M bool :=
  fun w => (Ok (bool_decide (is_Some (files w !! name))), w).

(** [open(filepath, 'wb')]: the file is created, or truncated, at once. *)
Definition open_wb (name : string) : M unit :=
  fun w => (Ok tt, World (<[name := []]> (files w)) (events w)).

(** [f.write(data)] on the file just opened, and its closing. *)
Definition write_file (name : string) (data : list byte) : M unit :=
  fun w => (Ok tt, World (<[name := data]> (files w)) (events w)).

(** [len([f for f in logo_dir.iterdir() if f.is_file()])] *)
Definition count_files : M Z :=
  fun w => (Ok (Z.of_nat (size (files w))), w).

Record token : Type := Token {
  symbol : string;
  logoUrl : option string
}.

Record counters : Type := Counters {
  downloaded : Z;
  skipped : Z;
  failed : Z
}.

(** Truth value of [token.get('logoUrl')]: [None] and [''] are false. *)
Definition truthy (v : option string) : bool :=
  match v with
  | None => false
  | Some s => negb (Str.is_empty s)
  end.

Definition user_agents : list string :=
  ["Mozilla/5.0 (Macintosh; Intel Mac OS X 10_15_7) AppleWebKit/537.36 (KHTML, like Gecko) Chrome/120.0.0.0 Safari/537.36";
   "Mozilla/5.0 (Windows NT 10.0; Win64; x64) AppleWebKit/537.36 (KHTML, like Gecko) Chrome/120.0.0.0 Safari/537.36";
   "curl/7.68.0";
   "wget/1.21.3"]%string.

(** The request built at the head of each attempt, and its timeout. *)
Definition make_request (url user_agent : string) : request :=
  {| req_url := url;
     req_headers :=
       [("User-Agent", user_agent);
        ("Accept", "image/webp,image/apng,image/svg+xml,image/*,*/*;q=0.8");
        ("Accept-Language", "en-US,en;q=0.9");
        ("DNT", "1");
        ("Connection", "keep-alive")]%string;
     req_timeout := 30 |}.

Section Program.

Variable bracketed_host_ok : string -> bool.
Variable net : network.

(** [urllib.request.urlopen(req, timeout=30)] *)
Definition urlopen (r : request) : M outcome :=
  fun w =>
    (Ok (net (requests (events w)) r),
     World (files w) (events w ++ [Urlopen r])).

(** ** [download_file] *)

(** [if i == 0: print(...)] of the handlers. *)
Definition first_only (i : Z) (m : message) : M unit :=
  if i =? 0 then print m else ret tt.

(** The body of the [try] for one user agent; [true] stands for the
    [return True] of line 78, [false] for falling through to the delay. *)
Definition attempt (url safe_filename : string) (i : Z) (user_agent : string)
  : M bool :=
  o <- urlopen (make_request url user_agent) ;;
  match o with
  | Response status body =>
      if status =? 200 then
        open_wb safe_filename ;;
        match body with
        | ReadOk data =>
            write_file safe_filename data ;;
            print (MsgDownloaded safe_filename) ;;
            ret true
        | ReadFails detail =>
            first_only i (MsgUnexpected url detail) ;;
            ret false
        end
      else
        first_only i (MsgHttpStatus url status) ;;
        ret false
  | HTTPError code =>
      first_only i
        (if code =? 403 then MsgForbidden url code
         else if code =? 404 then MsgNotFound url code
         else MsgHttpError url code) ;;
      ret false
  | URLError reason =>
      first_only i (MsgUrlError url reason) ;;
      ret false
  | OtherError detail =>
      first_only i (MsgUnexpected url detail) ;;
      ret false
  end.

(** [for i, user_agent in enumerate(user_agents)], from index [i] on. *)
Fixpoint attempts (url safe_filename : string) (i : Z) (uas : list string)
  : M bool :=
  match uas with
  | [] => ret false
  | user_agent :: rest =>
      returned <- attempt url safe_filename i user_agent ;;
      if returned then ret true
      else
        (if i <? Z.of_nat (length user_agents) - 1 then sleep 500 else ret tt) ;;
        attempts url safe_filename (i + 1) rest
  end.

Definition download_file (url : option string) (filename : string) : M bool :=
  if negb (truthy url) then
    print (MsgSkipNoUrl filename) ;;
    ret false
  else
    let url := default EmptyString url in
    extension <- lift (get_extension_from_url bracketed_host_ok url) ;;
    let safe_filename := sanitize_filename filename +:+ extension in
    present <- file_exists safe_filename ;;
    if present then
      print (MsgAlreadyExists safe_filename) ;;
      ret true
    else
      print (MsgDownloading url safe_filename) ;;
      attempts url safe_filename 0 user_agents.

(** ** [main] *)

(** Lines 115 to 118: the call of the fetcher and its bookkeeping. *)
Definition fetch_and_count (c : counters) (url : option string)
  (filename : string) : M counters :=
  ok <- download_file url filename ;;
  if ok then ret (Counters (downloaded c + 1) (skipped c) (failed c))
  else ret (Counters (downloaded c) (skipped c) (failed c + 1)).

(** The body of the loop of [main] for the record at index [i]. *)
Definition process_token (total : Z) (c : counters) (i : Z) (t : token)
  : M counters :=
  c' <- (if truthy (logoUrl t) then
           let filename := symbol t in
           fetch_and_count c (logoUrl t) filename
         else
           print (MsgNoLogo (symbol t)) ;;
           ret (Counters (downloaded c) (skipped c + 1) (failed c))) ;;
  sleep 300 ;;
  (if (i + 1) mod 20 =? 0 then print (MsgProgress (i + 1) total) else ret tt) ;;
  ret c'.

(** [for i, token in enumerate(token_list)], from index [i] on. *)
Fixpoint main_loop (total : Z) (c : counters) (i : Z) (tokens : list token)
  : M counters :=
  match tokens with
  | [] => ret c
  | t :: rest =>
      c' <- process_token total c i t ;;
      main_loop total c' (i + 1) rest
  end.

(** [main] returns nothing in Python; the model hands back the three
    counters it has just printed. *)
Definition main (token_list : list token) : M counters :=
  let total := Z.of_nat (length token_list) in
  print (MsgStart total) ;;
  c <- main_loop total (Counters 0 0 0) 0 token_list ;;
  print MsgSummary ;;
  print (MsgSummaryDownloaded (downloaded c)) ;;
  print (MsgSummarySkipped (skipped c)) ;;
  print (MsgSummaryFailed (failed c)) ;;
  actual_files <- count_files ;;
  print (MsgTotalFiles actual_files) ;;
  ret c.

End Program.

(** ** The extension in the words of the specification *)

(** [split_last c s]: what stands before and after the last [c] of [s]. *)
Fixpoint split_last (c : ascii) (s : string) : option (string * string) :=
  match s with
  | EmptyString => None
  | String a r =>
      match split_last c r with
      | Some (b, t) => Some (String a b, t)
      | None => if Ascii.eqb a c then Some (EmptyString, r) else None
      end
  end.

(** The final path segment: what follows the last [/]. *)
Definition final_segment (path : string) : string :=
  match split_last "/" path with
  | Some (_, seg) => seg
  | None => path
  end.

(** "The substring from the last [.] to the end of the final path segment". *)
Definition last_dot_suffix (seg : string) : string :=
  match split_last "." seg with
  | Some (_, e) => String "." e
  | None => EmptyString
  end.

Definition is_dot (c : ascii) : bool := Ascii.eqb c ".".

(** The same, except that the leading dots of the segment are no extension
    separators: a segment that has only dots before its last dot has no
    extension. *)
Definition segment_extension (seg : string) : string :=
  match split_last "." seg with
  | Some (stem, e) => if Str.all is_dot stem then EmptyString else String "." e
  | None => EmptyString
  end.



(** ** The answers of the network to successive attempts *)

(** The outcome of each attempt of a retry loop over [uas] that starts when
    the requests [log] have been made, should the loop get that far. *)
Fixpoint outcomes (net : network) (log : list request) (url : string)
  (uas : list string) : list outcome :=
  match uas with
  | [] => []
  | ua :: rest =>
      net log (make_request url ua)
      :: outcomes net (log ++ [make_request url ua]) url rest
  end.

(** The attempt got a response with status 200. *)
Definition yields_200 (o : outcome) : bool :=
  match o with
  | Response status _ => status =? 200
  | _ => false
  end.

(** The attempt got a response with status 200 and read all of its body. *)
Definition delivers (o : outcome) : option (list byte) :=
  match o with
  | Response status (ReadOk data) => if status =? 200 then Some data else None
  | _ => None
  end.

(** The destination of a fetch, when the URL parser accepts the URL. *)
Definition destination (bracketed_host_ok : string -> bool)
  (url filename : string) : result string :=
  match get_extension_from_url bracketed_host_ok url with
  | Ok extension => Ok (sanitize_filename filename +:+ extension)
  | Raise e => Raise e
  end.

(** ** Statements of the specification that the code does not meet *)




(** A computation that neither touches the directory nor the network. *)
Definition quiet (c : M unit) : Prop :=
  forall w, exists w',
    c w = (Ok tt, w') /\ files w' = files w
    /\ requests (events w') = requests (events w).

Create HintDb quiet.

(** What ends the processing of the record at index [i]: the delay, and
    the progress line after every twentieth record. *)
Definition after_record (total i : Z) : list event :=
  Sleep 300
  :: (if (i + 1) mod 20 =? 0 then [Print (MsgProgress (i + 1) total)] else []).

(** The final summary, [n] being the number of files in the directory. *)
Definition summary_events (c : counters) (n : Z) : list event :=
  [Print MsgSummary;
   Print (MsgSummaryDownloaded (downloaded c));
   Print (MsgSummarySkipped (skipped c));
   Print (MsgSummaryFailed (failed c));
   Print (MsgTotalFiles n)].

Definition processed (c : counters) : Z := downloaded c + skipped c + failed c.

(** Two networks answer alike every request that the fetcher builds for
    [url]. *)
Definition agree_on (net1 net2 : network) (url : string) : Prop :=
  forall log ua,
    net1 log (make_request url ua) = net2 log (make_request url ua).

(** ** Scenarios *)

Definition empty_world : world := World ∅ [].

(** Every attempt is answered with status 200 and the connection breaks
    while the body is read. *)
Definition net_broken_body : network :=
  fun _ _ => Response 200 (ReadFails "IncompleteRead").

(** The good URL is answered with status 200 and a body, every other
    request with the error 404. *)
Definition net_good_bad (body : list byte) : network :=
  fun _ r =>
    if String.eqb (req_url r) "http://good/a.png"
    then Response 200 (ReadOk body)
    else HTTPError 404.


Definition three_tokens : list token :=
  [Token "AAA" (Some "http://good/a.png");
   Token "BBB" (Some "");
   Token "CCC" (Some "http://bad/c.png")]%string.

Definition any_host (_ : string) : bool := true.

(** * Properties *)

(** ** Strings *)

Lemma app_cons (a : ascii) (s t : string) :
  String a s +:+ t = String a (s +:+ t).
Proof. reflexivity. Qed.

Lemma app_nil_l (t : string) : EmptyString +:+ t = t.
Proof. reflexivity. Qed.

Lemma app_assoc_str (s t u : string) : (s +:+ t) +:+ u = s +:+ (t +:+ u).
Proof. induction s as [|a s IH]; [reflexivity|]. rewrite !app_cons, IH. reflexivity. Qed.

Lemma length_app_str (s t : string) :
  String.length (s +:+ t) = (String.length s + String.length t)%nat.
Proof. induction s as [|a s IH]; [reflexivity|]. rewrite app_cons. simpl. lia. Qed.

Lemma drop_app_length (s t : string) : Str.drop (String.length s) (s +:+ t) = t.
Proof. induction s as [|a s IH]; [destruct t; reflexivity|]. rewrite app_cons. exact IH. Qed.

Lemma take_app_length (s t : string) : Str.take (String.length s) (s +:+ t) = s.
Proof.
  induction s as [|a s IH]; [destruct t; reflexivity|].
  rewrite app_cons. simpl. rewrite IH. reflexivity.
Qed.

Lemma from_app_length (s t : string) :
  Str.from (Z.of_nat (String.length s)) (s +:+ t) = t.
Proof. unfold Str.from. rewrite Nat2Z.id. apply drop_app_length. Qed.

Lemma upto_app_length (s t : string) :
  Str.upto (Z.of_nat (String.length s)) (s +:+ t) = s.
Proof. unfold Str.upto. rewrite Nat2Z.id. apply take_app_length. Qed.

Lemma rfind_lower_bound (c : ascii) (s : string) : -1 <= Str.rfind c s.
Proof.
  induction s as [|a s IH]; simpl; [lia|].
  destruct (0 <=? Str.rfind c s) eqn:E; [apply Z.leb_le in E; lia|].
  destruct (Ascii.eqb a c); lia.
Qed.

Lemma rfind_upper_bound (c : ascii) (s : string) :
  Str.rfind c s < Z.of_nat (String.length s).
Proof.
  induction s as [|a s IH]; simpl String.length; simpl Str.rfind; [lia|].
  destruct (0 <=? Str.rfind c s) eqn:E; [lia|].
  destruct (Ascii.eqb a c); lia.
Qed.

(** [rfind] over a concatenation looks in the right part first. *)
Lemma rfind_app (c : ascii) (s t : string) :
  Str.rfind c (s +:+ t) =
  if 0 <=? Str.rfind c t then Z.of_nat (String.length s) + Str.rfind c t
  else Str.rfind c s.
Proof.
  induction s as [|a s IH].
  - rewrite app_nil_l. simpl.
    destruct (0 <=? Str.rfind c t) eqn:E; [lia|].
    apply Z.leb_gt in E. pose proof (rfind_lower_bound c t). lia.
  - rewrite app_cons. simpl Str.rfind. rewrite IH.
    simpl String.length.
    destruct (0 <=? Str.rfind c t) eqn:E.
    + apply Z.leb_le in E.
      destruct (0 <=? Z.of_nat (String.length s) + Str.rfind c t) eqn:E2; [lia|].
      apply Z.leb_gt in E2. lia.
    + reflexivity.
Qed.

(** [split_last] and [rfind] find the same place. *)
Lemma split_last_None (c : ascii) (s : string) :
  split_last c s = None -> Str.rfind c s = -1.
Proof.
  induction s as [|a s IH]; simpl; [reflexivity|].
  destruct (split_last c s) as [[b t]|]; [discriminate|].
  rewrite IH by reflexivity. simpl.
  destruct (Ascii.eqb a c); [discriminate|reflexivity].
Qed.

Lemma split_last_Some (c : ascii) (s b t : string) :
  split_last c s = Some (b, t) ->
  s = b +:+ String c t /\ Str.rfind c s = Z.of_nat (String.length b)
  /\ Str.rfind c t = -1.
Proof.
  revert b t. induction s as [|a s IH]; intros b t; simpl; [discriminate|].
  destruct (split_last c s) as [[b' t']|] eqn:E.
  - intros [= <- <-]. destruct (IH b' t' eq_refl) as (Hs & Hr & Ht).
    rewrite app_cons. split; [congruence|]. split; [|exact Ht].
    rewrite Hr. simpl String.length.
    destruct (0 <=? Z.of_nat (String.length b')) eqn:E2; [lia|].
    apply Z.leb_gt in E2. lia.
  - destruct (Ascii.eqb_spec a c) as [->|]; [|discriminate].
    intros [= <- <-]. rewrite app_nil_l.
    pose proof (split_last_None c s E) as Hr.
    split; [reflexivity|]. split; [|exact Hr].
    rewrite Hr. reflexivity.
Qed.

(** ** [os.path.splitext] *)

(** The scan over the characters between the separator and the last dot. *)
Lemma splitext_scan_stem (stem pre rest : string) (dotIndex : Z) :
  splitext_scan (pre +:+ (stem +:+ rest)) dotIndex
    (Z.of_nat (String.length pre)) (String.length stem)
  = if Str.all is_dot stem then (pre +:+ (stem +:+ rest), EmptyString)
    else (Str.upto dotIndex (pre +:+ (stem +:+ rest)),
          Str.from dotIndex (pre +:+ (stem +:+ rest))).
Proof.
  revert pre. induction stem as [|a stem IH]; intros pre; [reflexivity|].
  simpl String.length. simpl splitext_scan. simpl Str.all.
  unfold Str.slice.
  replace (Z.of_nat (String.length pre) + 1 - Z.of_nat (String.length pre))
    with 1 by lia.
  rewrite from_app_length, app_cons.
  change (Str.upto 1 (String a (stem +:+ rest))) with (String a EmptyString).
  unfold is_dot at 1.
  change (String a EmptyString =? ".")%string
    with (if Ascii.eqb a "." then true else false).
  destruct (Ascii.eqb a "."); simpl negb; simpl andb; [|reflexivity].
  specialize (IH (pre +:+ String a EmptyString)).
  rewrite length_app_str in IH. simpl String.length in IH.
  replace (Z.of_nat (String.length pre + 1)) with (Z.of_nat (String.length pre) + 1)
    in IH by lia.
  rewrite app_assoc_str in IH. rewrite app_cons, app_nil_l in IH.
  exact IH.
Qed.

(** The extension that [splitext] splits off is the extension of the final
    segment of the path. *)
Lemma splitext_segment (path : string) :
  snd (splitext path) = segment_extension (final_segment path).
Proof.
  unfold splitext, final_segment, segment_extension.
  destruct (split_last "/" path) as [[dir seg]|] eqn:Hsep.
  - destruct (split_last_Some _ _ _ _ Hsep) as (Hp & Hsi & _).
    rewrite Hsi.
    assert (Hpath : path = (dir +:+ String "/" EmptyString) +:+ seg).
    { rewrite app_assoc_str, app_cons, app_nil_l. exact Hp. }
    assert (Hlen : Z.of_nat (String.length (dir +:+ String "/" EmptyString))
                   = Z.of_nat (String.length dir) + 1).
    { rewrite length_app_str. simpl. lia. }
    assert (Hdir : Str.rfind "." (dir +:+ String "/" EmptyString)
                   < Z.of_nat (String.length dir)).
    { rewrite rfind_app. simpl. apply rfind_upper_bound. }
    destruct (split_last "." seg) as [[stem e]|] eqn:Hdot.
    + destruct (split_last_Some _ _ _ _ Hdot) as (Hseg & Hdi & _).
      assert (Hd : Str.rfind "." path
                   = Z.of_nat (String.length dir) + 1 + Z.of_nat (String.length stem)).
      { rewrite Hpath at 1. rewrite rfind_app, Hdi, Hlen.
        destruct (0 <=? Z.of_nat (String.length stem)) eqn:E; [reflexivity|].
        apply Z.leb_gt in E. lia. }
      rewrite Hd.
      destruct (Z.of_nat (String.length dir) <?
                Z.of_nat (String.length dir) + 1 + Z.of_nat (String.length stem)) eqn:E;
        [|apply Z.ltb_ge in E; lia].
      replace (Z.to_nat (Z.of_nat (String.length dir) + 1 + Z.of_nat (String.length stem)
                         - (Z.of_nat (String.length dir) + 1)))
        with (String.length stem) by lia.
      rewrite <- Hlen.
      rewrite Hpath at 1. rewrite Hseg at 1.
      rewrite splitext_scan_stem.
      destruct (Str.all is_dot stem); [reflexivity|].
      cbn [snd]. rewrite <- Hseg, <- Hpath.
      replace (Z.of_nat (String.length (dir +:+ String "/" EmptyString))
               + Z.of_nat (String.length stem))
        with (Z.of_nat (String.length ((dir +:+ String "/" EmptyString) +:+ stem))).
      2:{ rewrite length_app_str. lia. }
      rewrite Hpath, Hseg, <- app_assoc_str.
      apply from_app_length.
    + pose proof (split_last_None _ _ Hdot) as Hdi.
      assert (Hd : Str.rfind "." path < Z.of_nat (String.length dir)).
      { rewrite Hpath, rfind_app, Hdi. exact Hdir. }
      destruct (Z.of_nat (String.length dir) <? Str.rfind "." path) eqn:E;
        [apply Z.ltb_lt in E; lia|reflexivity].
  - pose proof (split_last_None _ _ Hsep) as Hsi. rewrite Hsi.
    destruct (split_last "." path) as [[stem e]|] eqn:Hdot.
    + destruct (split_last_Some _ _ _ _ Hdot) as (Hseg & Hdi & _).
      rewrite Hdi.
      destruct (-1 <? Z.of_nat (String.length stem)) eqn:E;
        [|apply Z.ltb_ge in E; lia].
      replace (Z.to_nat (Z.of_nat (String.length stem) - (-1 + 1)))
        with (String.length stem) by lia.
      change (-1 + 1) with (Z.of_nat (String.length EmptyString)).
      pose proof (splitext_scan_stem stem EmptyString (String "." e)
                    (Z.of_nat (String.length stem))) as Hscan.
      rewrite !app_nil_l in Hscan. rewrite <- Hseg in Hscan. rewrite Hscan.
      destruct (Str.all is_dot stem); [reflexivity|].
      cbn [snd]. rewrite Hseg. apply from_app_length.
    + pose proof (split_last_None _ _ Hdot) as Hdi. rewrite Hdi. reflexivity.
Qed.

(** A segment that does not begin with a dot has the extension that the
    specification describes. *)
Lemma segment_extension_no_leading_dot (a : ascii) (r : string) :
  a <> "."%char ->
  segment_extension (String a r) = last_dot_suffix (String a r).
Proof.
  intros Ha. unfold segment_extension, last_dot_suffix. simpl.
  destruct (split_last "." r) as [[b t]|].
  - simpl. unfold is_dot at 1.
    destruct (Ascii.eqb_spec a "."); [contradiction|reflexivity].
  - destruct (Ascii.eqb_spec a "."); [contradiction|reflexivity].
Qed.

(** ** The extension resolver *)



(** ** The sanitizer *)

Lemma sanitize_char_safe (c : ascii) :
  safe_char (if safe_char c then c else "_"%char) = true.
Proof. destruct (safe_char c) eqn:E; [exact E|reflexivity]. Qed.

(** C3.  The sanitizer keeps the length; at every position it keeps a
    character of [A-Za-z0-9\-_.] and puts an underscore for any other; all
    the characters of its result are in that set; and it is the identity on
    a string whose characters all are. *)
Theorem sanitize_filename_spec (s : string) :
  String.length (sanitize_filename s) = String.length s
  /\ (forall i : nat,
        String.get i (sanitize_filename s)
        = (fun c => if safe_char c then c else "_"%char) <$> String.get i s)
  /\ Str.all safe_char (sanitize_filename s) = true
  /\ (Str.all safe_char s = true -> sanitize_filename s = s).
Proof.
  unfold sanitize_filename. repeat split.
  - induction s as [|a s IH]; simpl; [reflexivity|]. rewrite IH. reflexivity.
  - induction s as [|a s IH]; intros i; simpl; [reflexivity|].
    destruct i as [|i]; [reflexivity|]. apply IH.
  - induction s as [|a s IH]; simpl; [reflexivity|].
    rewrite sanitize_char_safe, IH. reflexivity.
  - induction s as [|a s IH]; simpl; [reflexivity|].
    intros [Ha Hs]%andb_true_iff. rewrite Ha, (IH Hs). reflexivity.
Qed.

Lemma sanitize_filename_spec_witness :
  sanitize_filename "USDC.e-2_x" = "USDC.e-2_x"%string.
Proof.
  apply (sanitize_filename_spec "USDC.e-2_x"). reflexivity.
Defined.

(** ** The trace *)

Lemma requests_app (evs1 evs2 : list event) :
  requests (evs1 ++ evs2) = requests evs1 ++ requests evs2.
Proof.
  induction evs1 as [|[m|n|r] evs1 IH]; simpl; [reflexivity|exact IH|exact IH|].
  rewrite IH. reflexivity.
Qed.

Lemma quiet_ret : quiet (ret tt).
Proof. intros w. exists w. repeat split. Qed.

Lemma quiet_print (m : message) : quiet (print m).
Proof.
  intros w. eexists. split; [reflexivity|]. simpl. split; [reflexivity|].
  rewrite requests_app. simpl. apply app_nil_r.
Qed.

Lemma quiet_sleep (n : Z) : quiet (sleep n).
Proof.
  intros w. eexists. split; [reflexivity|]. simpl. split; [reflexivity|].
  rewrite requests_app. simpl. apply app_nil_r.
Qed.

Lemma quiet_if (b : bool) (c1 c2 : M unit) :
  quiet c1 -> quiet c2 -> quiet (if b then c1 else c2).
Proof. destruct b; auto. Qed.

Lemma quiet_first_only (i : Z) (m : message) : quiet (first_only i m).
Proof. apply quiet_if; [apply quiet_print|apply quiet_ret]. Qed.

#[local] Hint Resolve quiet_ret quiet_print quiet_sleep quiet_if quiet_first_only
  : quiet.

(** Running a quiet computation first changes nothing but the trace. *)
Lemma bind_quiet {A : Type} (c : M unit) (k : M A) (w : world) :
  quiet c ->
  exists w1, (c ;; k) w = k w1 /\ files w1 = files w
             /\ requests (events w1) = requests (events w).
Proof.
  intros Hc. destruct (Hc w) as (w1 & Hrun & Hf & Hr).
  exists w1. unfold bind. rewrite Hrun. auto.
Qed.

(** ** The fetcher *)

Section Fetcher.

Variable bracketed_host_ok : string -> bool.
Variable net : network.

(** One attempt: it never raises, adds its request to the log, and returns
    from the function exactly when it delivers a body, which is then the
    content of the file; a response with status 200 whose body cannot be
    read leaves the file empty. *)
Lemma attempt_spec (url name : string) (i : Z) (ua : string) (w : world) :
  let o := net (requests (events w)) (make_request url ua) in
  exists w',
    attempt net url name i ua w
    = (Ok (match delivers o with Some _ => true | None => false end), w')
    /\ requests (events w') = requests (events w) ++ [make_request url ua]
    /\ files w' = match delivers o with
                  | Some data => <[name := data]> (files w)
                  | None => if yields_200 o then <[name := []]> (files w)
                            else files w
                  end.
Proof.
  intros o. unfold attempt, bind at 1, urlopen. fold o.
  set (w1 := World (files w) (events w ++ [Urlopen (make_request url ua)])).
  assert (Hr1 : requests (events w1) = requests (events w) ++ [make_request url ua]).
  { unfold w1. simpl. rewrite requests_app. reflexivity. }
  destruct o as [status body|code|reason|detail]; simpl delivers; simpl yields_200.
  - destruct (status =? 200) eqn:Est.
    + unfold bind at 1, open_wb.
      set (w2 := World (<[name := []]> (files w1)) (events w1)).
      destruct body as [data|detail].
      * eexists. split; [reflexivity|]. simpl. split.
        { rewrite requests_app, <- Hr1, app_nil_r. reflexivity. }
        apply insert_insert_eq.
      * destruct (bind_quiet (first_only i (MsgUnexpected url detail))
                    (ret false) w2) as (w3 & Hrun & Hf & Hr); auto with quiet.
        exists w3. rewrite Hrun. split; [reflexivity|]. rewrite Hr, Hf. auto.
    + destruct (bind_quiet (first_only i (MsgHttpStatus url status))
                  (ret false) w1) as (w3 & Hrun & Hf & Hr); auto with quiet.
      exists w3. rewrite Hrun. destruct body; (split; [reflexivity|]);
        rewrite Hr, Hf; auto.
  - match goal with |- context [first_only i ?m] =>
      destruct (bind_quiet (first_only i m) (ret false) w1)
        as (w3 & Hrun & Hf & Hr); auto with quiet end.
    exists w3. rewrite Hrun. split; [reflexivity|]. rewrite Hr, Hf. auto.
  - destruct (bind_quiet (first_only i (MsgUrlError url reason))
                (ret false) w1) as (w3 & Hrun & Hf & Hr); auto with quiet.
    exists w3. rewrite Hrun. split; [reflexivity|]. rewrite Hr, Hf. auto.
  - destruct (bind_quiet (first_only i (MsgUnexpected url detail))
                (ret false) w1) as (w3 & Hrun & Hf & Hr); auto with quiet.
    exists w3. rewrite Hrun. split; [reflexivity|]. rewrite Hr, Hf. auto.
Qed.

(** The retry loop: it never raises; it returns [true] at the first
    attempt that delivers a body, which becomes the content of the file,
    and makes no attempt after it; it returns [false] when no attempt
    delivers, and then the file has been created empty if some response
    had status 200. *)
Lemma attempts_spec (url name : string) (uas : list string) :
  forall (i : Z) (w : world),
  exists b w',
    attempts net url name i uas w = (Ok b, w')
    /\ (b = true ->
        exists pre o post data,
          outcomes net (requests (events w)) url uas = pre ++ o :: post
          /\ Forall (fun o => delivers o = None) pre
          /\ delivers o = Some data
          /\ files w' = <[name := data]> (files w)
          /\ requests (events w')
             = requests (events w)
               ++ map (make_request url) (take (S (length pre)) uas))
    /\ (b = false ->
        Forall (fun o => delivers o = None)
          (outcomes net (requests (events w)) url uas)
        /\ files w'
           = (if existsb yields_200 (outcomes net (requests (events w)) url uas)
              then <[name := []]> (files w) else files w)
        /\ requests (events w')
           = requests (events w) ++ map (make_request url) uas).
Proof.
  induction uas as [|ua rest IH]; intros i w.
  - exists false, w. split; [reflexivity|]. split; [discriminate|].
    intros _. simpl. rewrite app_nil_r. auto.
  - destruct (attempt_spec url name i ua w) as (w1 & Hrun & Hr1 & Hf1).
    simpl attempts. unfold bind at 1. rewrite Hrun. simpl outcomes.
    set (o := net (requests (events w)) (make_request url ua)) in *.
    destruct (delivers o) as [data|] eqn:Hd.
    + exists true, w1. split; [reflexivity|]. split; [|discriminate].
      intros _.
      exists [], o,
        (outcomes net (requests (events w) ++ [make_request url ua]) url rest),
        data.
      simpl. destruct rest; auto.
    + match goal with |- context [bind ?c _] =>
        destruct (bind_quiet c (attempts net url name (i + 1) rest) w1)
          as (w2 & Hrun2 & Hf2 & Hr2); auto with quiet end.
      destruct (IH (i + 1) w2) as (b & w' & Hrun' & Htrue & Hfalse).
      rewrite Hr2, Hr1 in Htrue, Hfalse. rewrite Hf2, Hf1 in Htrue, Hfalse.
      exists b, w'. split; [rewrite Hrun2; exact Hrun'|]. split.
      * intros Hb. destruct (Htrue Hb) as (pre & o' & post & d & Hos & Hpre & Hd' & Hf & Hr).
        exists (o :: pre), o', post, d. rewrite Hos. split; [reflexivity|].
        split; [constructor; assumption|]. split; [exact Hd'|]. split.
        -- rewrite Hf. destruct (yields_200 o); [apply insert_insert_eq|reflexivity].
        -- rewrite Hr, <- app_assoc. reflexivity.
      * intros Hb. destruct (Hfalse Hb) as (Hall & Hf & Hr).
        split; [constructor; assumption|]. split.
        -- rewrite Hf. simpl existsb.
           destruct (yields_200 o); simpl orb; [|reflexivity].
           destruct (existsb yields_200 _); [apply insert_insert_eq|reflexivity].
        -- rewrite Hr, <- app_assoc. reflexivity.
Qed.


(** The four ways through [download_file]. *)
Lemma download_file_falsy (url : option string) (filename : string) (w : world) :
  truthy url = false ->
  download_file bracketed_host_ok net url filename w
  = (Ok false, World (files w) (events w ++ [Print (MsgSkipNoUrl filename)])).
Proof. intros H. unfold download_file. rewrite H. reflexivity. Qed.

Lemma truthy_Some (url : string) : url <> EmptyString -> truthy (Some url) = true.
Proof. destruct url; [contradiction|reflexivity]. Qed.

Lemma download_file_raises (url filename : string) (e : exn) (w : world) :
  url <> EmptyString ->
  get_extension_from_url bracketed_host_ok url = Raise e ->
  download_file bracketed_host_ok net (Some url) filename w = (Raise e, w).
Proof.
  intros Hu He. unfold download_file. rewrite (truthy_Some _ Hu). simpl.
  unfold bind, lift. rewrite He. reflexivity.
Qed.

Lemma download_file_present (url filename ext : string) (w : world) :
  url <> EmptyString ->
  get_extension_from_url bracketed_host_ok url = Ok ext ->
  is_Some (files w !! (sanitize_filename filename +:+ ext)) ->
  download_file bracketed_host_ok net (Some url) filename w
  = (Ok true,
     World (files w)
       (events w ++ [Print (MsgAlreadyExists (sanitize_filename filename +:+ ext))])).
Proof.
  intros Hu He Hin. unfold download_file. rewrite (truthy_Some _ Hu). simpl.
  unfold bind at 1, lift. rewrite He.
  unfold bind at 1, file_exists. rewrite bool_decide_eq_true_2 by exact Hin.
  reflexivity.
Qed.

Lemma download_file_absent (url filename ext : string) (w : world) :
  url <> EmptyString ->
  get_extension_from_url bracketed_host_ok url = Ok ext ->
  files w !! (sanitize_filename filename +:+ ext) = None ->
  download_file bracketed_host_ok net (Some url) filename w
  = attempts net url (sanitize_filename filename +:+ ext) 0 user_agents
      (World (files w)
         (events w
          ++ [Print (MsgDownloading url (sanitize_filename filename +:+ ext))])).
Proof.
  intros Hu He Hout. unfold download_file. rewrite (truthy_Some _ Hu). simpl.
  unfold bind at 1, lift. rewrite He.
  unfold bind at 1, file_exists. rewrite bool_decide_eq_false_2.
  2:{ rewrite Hout. intros [x Hx]. discriminate Hx. }
  reflexivity.
Qed.

Lemma truthy_inv (url : option string) :
  truthy url = true -> exists u, url = Some u /\ u <> EmptyString.
Proof.
  destruct url as [[|a u]|]; simpl; try discriminate.
  intros _. eexists. split; [reflexivity|discriminate].
Qed.




(** What any fetch does to the directory and to the log of requests:
    files are only added, and requests are made only for the URL given,
    and only when the destination does not exist. *)
Lemma download_file_effect (url : option string) (filename : string)
  (w : world) (r : result bool) (w' : world) :
  download_file bracketed_host_ok net url filename w = (r, w') ->
  files w ⊆ files w'
  /\ exists new,
      requests (events w') = requests (events w) ++ new
      /\ (new = []
          \/ exists u ext,
              url = Some u /\ u <> EmptyString
              /\ get_extension_from_url bracketed_host_ok u = Ok ext
              /\ files w !! (sanitize_filename filename +:+ ext) = None
              /\ Forall (fun rq => req_url rq = u) new).
Proof.
  intros Hrun. destruct (truthy url) eqn:Ht.
  - destruct (truthy_inv url Ht) as (u & -> & Hu).
    destruct (get_extension_from_url bracketed_host_ok u) as [ext|e] eqn:He.
    + destruct (files w !! (sanitize_filename filename +:+ ext)) as [d|] eqn:Hl.
      * rewrite (download_file_present u filename ext w Hu He) in Hrun
          by (rewrite Hl; eauto).
        injection Hrun as <- <-. simpl. split; [reflexivity|].
        exists []. rewrite requests_app. auto.
      * rewrite (download_file_absent u filename ext w Hu He Hl) in Hrun.
        set (name := sanitize_filename filename +:+ ext) in *.
        set (w1 := World (files w) (events w ++ [Print (MsgDownloading u name)])) in *.
        assert (Hr1 : requests (events w1) = requests (events w)).
        { unfold w1. simpl. rewrite requests_app. simpl. apply app_nil_r. }
        destruct (attempts_spec u name user_agents 0 w1)
          as (b & w2 & Hrun2 & Htrue & Hfalse).
        rewrite Hrun in Hrun2. injection Hrun2 as -> ->.
        rewrite Hr1 in Htrue, Hfalse.
        change (files w1) with (files w) in Htrue, Hfalse.
        assert (Hmk : forall uas, Forall (fun rq => req_url rq = u)
                                    (map (make_request u) uas)).
        { intros uas. induction uas as [|ua uas IHuas]; simpl; constructor; auto. }
        destruct b.
        -- destruct (Htrue eq_refl) as (pre & o & post & d & _ & _ & _ & Hf & Hr).
           split; [rewrite Hf; apply insert_subseteq; exact Hl|].
           eexists. split; [exact Hr|]. right. exists u, ext. auto.
        -- destruct (Hfalse eq_refl) as (_ & Hf & Hr). split.
           ++ rewrite Hf. destruct (existsb yields_200 _);
                [apply insert_subseteq; exact Hl|reflexivity].
           ++ eexists. split; [exact Hr|]. right. exists u, ext. auto.
    + rewrite (download_file_raises u filename e w Hu He) in Hrun.
      injection Hrun as <- <-. split; [reflexivity|].
      exists []. rewrite app_nil_r. auto.
  - rewrite (download_file_falsy url filename w Ht) in Hrun.
    injection Hrun as <- <-. simpl. split; [reflexivity|].
    exists []. rewrite requests_app. auto.
Qed.


End Fetcher.





(** ** The orchestrator *)

Section Orchestrator.

Variable bracketed_host_ok : string -> bool.
Variable net : network.

Lemma fetch_and_count_eq (c : counters) (url : option string)
  (filename : string) (w : world) :
  fetch_and_count bracketed_host_ok net c url filename w
  = match download_file bracketed_host_ok net url filename w with
    | (Ok true, w1) => (Ok (Counters (downloaded c + 1) (skipped c) (failed c)), w1)
    | (Ok false, w1) => (Ok (Counters (downloaded c) (skipped c) (failed c + 1)), w1)
    | (Raise e, w1) => (Raise e, w1)
    end.
Proof.
  unfold fetch_and_count, bind.
  destruct (download_file bracketed_host_ok net url filename w) as [[[|]|e] w1]; reflexivity.
Qed.

(** The end of an iteration only adds the delay and the progress line. *)
Lemma process_token_eq (total : Z) (c : counters) (i : Z) (t : token) (w : world) :
  process_token bracketed_host_ok net total c i t w
  = match (if truthy (logoUrl t)
           then fetch_and_count bracketed_host_ok net c (logoUrl t) (symbol t) w
           else (Ok (Counters (downloaded c) (skipped c + 1) (failed c)),
                 World (files w) (events w ++ [Print (MsgNoLogo (symbol t))])))
    with
    | (Ok c', w1) => (Ok c', World (files w1) (events w1 ++ after_record total i))
    | (Raise e, w1) => (Raise e, w1)
    end.
Proof.
  unfold process_token, after_record, bind at 1.
  destruct (truthy (logoUrl t)).
  - destruct (fetch_and_count bracketed_host_ok net c (logoUrl t) (symbol t) w) as [[c'|e] w1];
      [|reflexivity].
    unfold bind, sleep, print, emit, ret. simpl.
    destruct ((i + 1) mod 20 =? 0); simpl; rewrite <- ?app_assoc; reflexivity.
  - unfold bind, sleep, print, emit, ret. simpl.
    destruct ((i + 1) mod 20 =? 0); simpl; rewrite <- ?app_assoc; reflexivity.
Qed.

Lemma requests_after_record (evs : list event) (total i : Z) :
  requests (evs ++ after_record total i) = requests evs.
Proof.
  rewrite requests_app. unfold after_record.
  destruct ((i + 1) mod 20 =? 0); simpl; apply app_nil_r.
Qed.

(** One iteration: exactly one counter goes up by one. *)
Lemma process_token_counts (total : Z) (c : counters) (i : Z) (t : token)
  (w : world) (c' : counters) (w' : world) :
  process_token bracketed_host_ok net total c i t w = (Ok c', w') ->
  c' = Counters (downloaded c + 1) (skipped c) (failed c)
  \/ c' = Counters (downloaded c) (skipped c + 1) (failed c)
  \/ c' = Counters (downloaded c) (skipped c) (failed c + 1).
Proof.
  rewrite process_token_eq. destruct (truthy (logoUrl t)).
  - rewrite fetch_and_count_eq.
    destruct (download_file bracketed_host_ok net (logoUrl t) (symbol t) w) as [[[|]|e] w1];
      intros [= <- <-]; auto.
  - intros [= <- <-]. auto.
Qed.

(** One iteration: files are only added, and requests are made only for
    the URL of the record, and only when its destination does not exist. *)
Lemma process_token_effect (total : Z) (c : counters) (i : Z) (t : token)
  (w : world) (r : result counters) (w' : world) :
  process_token bracketed_host_ok net total c i t w = (r, w') ->
  files w ⊆ files w'
  /\ exists new,
      requests (events w') = requests (events w) ++ new
      /\ (new = []
          \/ exists u ext,
              logoUrl t = Some u /\ u <> EmptyString
              /\ get_extension_from_url bracketed_host_ok u = Ok ext
              /\ files w !! (sanitize_filename (symbol t) +:+ ext) = None
              /\ Forall (fun rq => req_url rq = u) new).
Proof.
  rewrite process_token_eq. destruct (truthy (logoUrl t)).
  - rewrite fetch_and_count_eq.
    destruct (download_file bracketed_host_ok net (logoUrl t) (symbol t) w) as [rb w1] eqn:Hrun.
    destruct (download_file_effect _ _ _ _ _ _ _ Hrun) as (Hsub & new & Hr & Hnew).
    destruct rb as [[|]|e]; intros [= <- <-]; simpl;
      (split; [exact Hsub|]); exists new;
      rewrite ?requests_after_record; auto.
  - intros [= <- <-]. simpl. split; [reflexivity|]. exists [].
    rewrite requests_after_record, requests_app. auto.
Qed.

Lemma main_loop_app (total : Z) (pre post : list token) :
  forall (c : counters) (i : Z) (w : world),
  main_loop bracketed_host_ok net total c i (pre ++ post) w
  = match main_loop bracketed_host_ok net total c i pre w with
    | (Ok c1, w1) => main_loop bracketed_host_ok net total c1 (i + Z.of_nat (length pre)) post w1
    | (Raise e, w1) => (Raise e, w1)
    end.
Proof.
  induction pre as [|t pre IH]; intros c i w.
  - simpl. rewrite Z.add_0_r. reflexivity.
  - simpl app. simpl main_loop. unfold bind.
    destruct (process_token bracketed_host_ok net total c i t w) as [[c1|e] w1]; [|reflexivity].
    rewrite IH. simpl length.
    replace (i + 1 + Z.of_nat (length pre)) with (i + Z.of_nat (S (length pre))) by lia.
    reflexivity.
Qed.

(** The loop: the counters only grow, and their sum grows by the number
    of records processed. *)
Lemma main_loop_counts (total : Z) (tokens : list token) :
  forall (c : counters) (i : Z) (w : world) (c' : counters) (w' : world),
  main_loop bracketed_host_ok net total c i tokens w = (Ok c', w') ->
  downloaded c <= downloaded c' /\ skipped c <= skipped c'
  /\ failed c <= failed c'
  /\ processed c' = processed c + Z.of_nat (length tokens).
Proof.
  unfold processed.
  induction tokens as [|t tokens IH]; intros c i w c' w'.
  - intros [= <- <-]. simpl. lia.
  - simpl main_loop. unfold bind.
    destruct (process_token bracketed_host_ok net total c i t w)
      as [[c1|e] w1] eqn:Hstep; [|discriminate].
    intros Hrest. apply IH in Hrest.
    apply process_token_counts in Hstep.
    simpl length. destruct Hstep as [->|[->| ->]]; simpl in Hrest; lia.
Qed.

(** The loop: what a run adds to the directory and asks of the network,
    relative to the directory it started from. *)
Lemma main_loop_effect (total : Z) (tokens : list token) :
  forall (c : counters) (i : Z) (w : world) (r : result counters) (w' : world),
  main_loop bracketed_host_ok net total c i tokens w = (r, w') ->
  files w ⊆ files w'
  /\ exists new,
      requests (events w') = requests (events w) ++ new
      /\ Forall (fun rq =>
                  exists t u ext,
                    In t tokens /\ logoUrl t = Some u /\ u <> EmptyString
                    /\ req_url rq = u
                    /\ get_extension_from_url bracketed_host_ok u = Ok ext
                    /\ files w !! (sanitize_filename (symbol t) +:+ ext) = None)
           new.
Proof.
  induction tokens as [|t tokens IH]; intros c i w r w'.
  - intros [= <- <-]. split; [reflexivity|]. exists []. rewrite app_nil_r. auto.
  - simpl main_loop. unfold bind.
    destruct (process_token bracketed_host_ok net total c i t w) as [rc w1] eqn:Hstep.
    destruct (process_token_effect _ _ _ _ _ _ _ Hstep) as (Hsub1 & new1 & Hr1 & Hnew1).
    assert (Hhere : Forall (fun rq =>
                  exists t0 u ext,
                    In t0 (t :: tokens) /\ logoUrl t0 = Some u /\ u <> EmptyString
                    /\ req_url rq = u
                    /\ get_extension_from_url bracketed_host_ok u = Ok ext
                    /\ files w !! (sanitize_filename (symbol t0) +:+ ext) = None)
               new1).
    { destruct Hnew1 as [->|(u & ext & Hu & Hne & He & Hl & Hall)]; [constructor|].
      eapply Forall_impl; [exact Hall|]. intros rq Hrq.
      exists t, u, ext. simpl. auto 10. }
    destruct rc as [c1|e].
    + intros Hrest. destruct (IH _ _ _ _ _ Hrest) as (Hsub2 & new2 & Hr2 & Hnew2).
      split; [etrans; eassumption|].
      exists (new1 ++ new2). split; [rewrite Hr2, Hr1, app_assoc; reflexivity|].
      apply Forall_app. split; [exact Hhere|].
      eapply Forall_impl; [exact Hnew2|]. intros rq (t0 & u & ext & Hin & Hu & Hne & Hrq & He & Hl).
      exists t0, u, ext. simpl. repeat (split; [auto; fail|]).
      eapply lookup_weaken_None; eassumption.
    + intros [= <- <-]. split; [exact Hsub1|]. exists new1. auto.
Qed.

Lemma main_eq (token_list : list token) (w : world) :
  main bracketed_host_ok net token_list w
  = match main_loop bracketed_host_ok net (Z.of_nat (length token_list))
            (Counters 0 0 0) 0 token_list
            (World (files w)
               (events w ++ [Print (MsgStart (Z.of_nat (length token_list)))]))
    with
    | (Ok c, w1) =>
        (Ok c,
         World (files w1)
           (events w1 ++ summary_events c (Z.of_nat (size (files w1)))))
    | (Raise e, w1) => (Raise e, w1)
    end.
Proof.
  unfold main, bind at 1, print at 1, emit. unfold bind at 1.
  destruct (main_loop bracketed_host_ok net _ _ _ _ _) as [[c|e] w1]; [|reflexivity].
  unfold bind, print, emit, count_files, ret, summary_events. simpl.
  rewrite <- !app_assoc. reflexivity.
Qed.




(** The number of records without a logo URL is what the loop adds to
    the counter of skipped records. *)
Lemma main_loop_skipped (total : Z) (tokens : list token) :
  forall (c : counters) (i : Z) (w : world) (c' : counters) (w' : world),
  main_loop bracketed_host_ok net total c i tokens w = (Ok c', w') ->
  skipped c'
  = skipped c
    + Z.of_nat (length (List.filter (fun t => negb (truthy (logoUrl t))) tokens)).
Proof.
  induction tokens as [|t tokens IH]; intros c i w c' w'.
  - intros [= <- <-]. simpl. lia.
  - simpl main_loop. unfold bind.
    destruct (process_token bracketed_host_ok net total c i t w)
      as [[c1|e] w1] eqn:Hstep; [|discriminate].
    intros Hrest. apply IH in Hrest. rewrite Hrest. clear Hrest.
    rewrite process_token_eq in Hstep. simpl List.filter.
    destruct (truthy (logoUrl t)); simpl negb; cbv iota.
    + rewrite fetch_and_count_eq in Hstep.
      destruct (download_file bracketed_host_ok net (logoUrl t) (symbol t) w)
        as [[[|]|e] w2]; try discriminate Hstep;
        injection Hstep as <- <-; simpl; lia.
    + injection Hstep as <- <-. simpl length. simpl skipped. lia.
Qed.

End Orchestrator.

(** The fetcher asks the network about the URL it is given and no other:
    two networks that agree on that URL give the same run. *)
Section Extensionality.

Variable bracketed_host_ok : string -> bool.
Variables net1 net2 : network.

Lemma attempts_ext (url name : string) (uas : list string) :
  agree_on net1 net2 url ->
  forall (i : Z) (w : world),
  attempts net1 url name i uas w = attempts net2 url name i uas w.
Proof.
  intros Hagree. induction uas as [|ua rest IH]; intros i w; [reflexivity|].
  simpl. unfold bind at 1 3.
  assert (Hone : attempt net1 url name i ua w = attempt net2 url name i ua w).
  { unfold attempt, bind at 1 5, urlopen. rewrite Hagree. reflexivity. }
  rewrite Hone. destruct (attempt net2 url name i ua w) as [[[|]|e] w1];
    try reflexivity.
  unfold bind. destruct (if i <? _ then _ else _) as [[[]|e] w2]; [|reflexivity].
  apply IH.
Qed.

Lemma download_file_ext (url : option string) (filename : string) (w : world) :
  (forall u, url = Some u -> u <> EmptyString -> agree_on net1 net2 u) ->
  download_file bracketed_host_ok net1 url filename w
  = download_file bracketed_host_ok net2 url filename w.
Proof.
  intros Hagree. destruct (truthy url) eqn:Ht.
  - destruct (truthy_inv url Ht) as (u & -> & Hu).
    destruct (get_extension_from_url bracketed_host_ok u) as [ext|e] eqn:He.
    + destruct (files w !! (sanitize_filename filename +:+ ext)) as [d|] eqn:Hl.
      * rewrite !(download_file_present _ _ u filename ext w Hu He)
          by (rewrite Hl; eauto).
        reflexivity.
      * rewrite !(download_file_absent _ _ u filename ext w Hu He Hl).
        apply attempts_ext, Hagree; auto.
    + rewrite !(download_file_raises _ _ u filename e w Hu He). reflexivity.
  - rewrite !(download_file_falsy _ _ url filename w Ht). reflexivity.
Qed.

Lemma main_loop_ext (total : Z) (tokens : list token) :
  (forall t u, In t tokens -> logoUrl t = Some u -> u <> EmptyString -> agree_on net1 net2 u) ->
  forall (c : counters) (i : Z) (w : world),
  main_loop bracketed_host_ok net1 total c i tokens w
  = main_loop bracketed_host_ok net2 total c i tokens w.
Proof.
  induction tokens as [|t tokens IH]; intros Hagree c i w; [reflexivity|].
  simpl. unfold bind at 1 2.
  assert (Hone : process_token bracketed_host_ok net1 total c i t w
                 = process_token bracketed_host_ok net2 total c i t w).
  { rewrite !process_token_eq, !fetch_and_count_eq.
    rewrite (download_file_ext (logoUrl t) (symbol t) w); [reflexivity|].
    intros u Hu. apply (Hagree t u); [left; reflexivity|exact Hu]. }
  rewrite Hone.
  destruct (process_token bracketed_host_ok net2 total c i t w) as [[c1|e] w1];
    [|reflexivity].
  apply IH. intros t0 u Hin. apply Hagree. right. exact Hin.
Qed.

Lemma main_ext (tokens : list token) (w : world) :
  (forall t u, In t tokens -> logoUrl t = Some u -> u <> EmptyString -> agree_on net1 net2 u) ->
  main bracketed_host_ok net1 tokens w = main bracketed_host_ok net2 tokens w.
Proof.
  intros Hagree. rewrite !main_eq, (main_loop_ext _ tokens Hagree). reflexivity.
Qed.

End Extensionality.

(** ** Fetching what is already there *)

(** C4.  A fetch whose destination exists reports success at once: it
    prints one line, leaves the directory as it is and makes no request.
    Hence a fetch that follows a successful fetch of the same URL and name
    reports success without any request, whatever the network does then.
    And a run of the whole program leaves every file that it finds in the
    directory as it is, and makes requests only for records whose
    destination was not in the directory when the run began. *)
Theorem download_file_idempotent (bracketed_host_ok : string -> bool) :
  (forall (net : network) (url filename ext : string) (w : world),
     url <> EmptyString ->
     get_extension_from_url bracketed_host_ok url = Ok ext ->
     is_Some (files w !! (sanitize_filename filename +:+ ext)) ->
     download_file bracketed_host_ok net (Some url) filename w
     = (Ok true,
        World (files w)
          (events w
           ++ [Print (MsgAlreadyExists (sanitize_filename filename +:+ ext))]))
     /\ requests
          (events w
           ++ [Print (MsgAlreadyExists (sanitize_filename filename +:+ ext))])
        = requests (events w))
  /\ (forall (net net' : network) (url : option string) (filename : string)
        (w w1 : world),
        download_file bracketed_host_ok net url filename w = (Ok true, w1) ->
        exists w2,
          download_file bracketed_host_ok net' url filename w1 = (Ok true, w2)
          /\ files w2 = files w1
          /\ requests (events w2) = requests (events w1))
  /\ (forall (net : network) (token_list : list token) (w : world)
        (r : result counters) (w' : world),
        main bracketed_host_ok net token_list w = (r, w') ->
        files w ⊆ files w'
        /\ exists new,
            requests (events w') = requests (events w) ++ new
            /\ Forall (fun rq =>
                    exists t u ext,
                      In t token_list /\ logoUrl t = Some u /\ u <> EmptyString
                      /\ req_url rq = u
                      /\ get_extension_from_url bracketed_host_ok u = Ok ext
                      /\ files w !! (sanitize_filename (symbol t) +:+ ext) = None)
                 new).
Proof.
  split; [|split].
  - intros net url filename ext w Hu He Hin.
    split; [apply download_file_present; assumption|].
    rewrite requests_app. apply app_nil_r.
  - intros net net' url filename w w1 Hrun.
    destruct (truthy url) eqn:Ht.
    + destruct (truthy_inv url Ht) as (u & -> & Hu).
      destruct (get_extension_from_url bracketed_host_ok u) as [ext|e] eqn:He.
      * assert (Hin : is_Some (files w1 !! (sanitize_filename filename +:+ ext))).
        { destruct (files w !! (sanitize_filename filename +:+ ext)) as [d|] eqn:Hl.
          - rewrite (download_file_present _ net u filename ext w Hu He) in Hrun
              by (rewrite Hl; eauto).
            injection Hrun as <-. simpl. rewrite Hl. eauto.
          - rewrite (download_file_absent _ net u filename ext w Hu He Hl) in Hrun.
            destruct (attempts_spec net u (sanitize_filename filename +:+ ext)
                        user_agents 0
                        (World (files w)
                           (events w ++ [Print (MsgDownloading u
                                                  (sanitize_filename filename +:+ ext))])))
              as (b & w2 & Hrun2 & Htrue & _).
            rewrite Hrun in Hrun2. injection Hrun2 as <- <-.
            destruct (Htrue eq_refl) as (pre & o & post & d & _ & _ & _ & Hf & _).
            rewrite Hf, lookup_insert_eq. eauto. }
        rewrite (download_file_present _ net' u filename ext w1 Hu He Hin).
        eexists. split; [reflexivity|]. simpl. split; [reflexivity|].
        rewrite requests_app. apply app_nil_r.
      * rewrite (download_file_raises _ net u filename e w Hu He) in Hrun.
        discriminate Hrun.
    + rewrite (download_file_falsy _ net url filename w Ht) in Hrun.
      discriminate Hrun.
  - intros net token_list w r w' Hrun. rewrite main_eq in Hrun.
    destruct (main_loop _ _ _ _ _ _ _) as [rc w1] eqn:Hloop.
    destruct (main_loop_effect _ _ _ _ _ _ _ _ _ Hloop) as (Hsub & new & Hr & Hnew).
    simpl in Hsub, Hr. rewrite requests_app in Hr. simpl in Hr.
    rewrite app_nil_r in Hr.
    destruct rc as [c|e]; injection Hrun as <- <-; simpl.
    + split; [exact Hsub|]. exists new. split; [|exact Hnew].
      rewrite requests_app, Hr. unfold summary_events. simpl. apply app_nil_r.
    + split; [exact Hsub|]. exists new. auto.
Qed.

Lemma download_file_idempotent_witness :
  let w1 := snd (download_file any_host (net_good_bad ["089"%byte])
                   (Some "http://good/a.png"%string) "AAA" empty_world) in
  exists w2,
    download_file any_host net_broken_body (Some "http://good/a.png"%string) "AAA" w1
    = (Ok true, w2)
    /\ files w2 = files w1
    /\ requests (events w2) = requests (events w1).
Proof.
  intros w1.
  apply (proj1 (proj2 (download_file_idempotent any_host))
           (net_good_bad ["089"%byte]) net_broken_body
           (Some "http://good/a.png"%string) "AAA" empty_world w1).
  vm_compute. reflexivity.
Defined.

(** ** Records without a logo URL *)

(** C6.  A record whose [logoUrl] is absent or empty, at any index and with
    any counters, adds one to the counter of skipped records and to no
    other; the iteration prints that there is no logo URL, sleeps, prints
    the progress line if one is due, and does nothing else: no line of the
    fetcher, no request, no change of the directory.  Over a whole run the
    counter of skipped records grows by the number of such records. *)
Theorem process_token_no_logo (bracketed_host_ok : string -> bool)
  (net : network) (total : Z) (c : counters) (i : Z) (t : token) (w : world) :
  logoUrl t = None \/ logoUrl t = Some EmptyString ->
  process_token bracketed_host_ok net total c i t w
  = (Ok (Counters (downloaded c) (skipped c + 1) (failed c)),
     World (files w)
       (events w ++ Print (MsgNoLogo (symbol t)) :: after_record total i))
  /\ requests (events w ++ Print (MsgNoLogo (symbol t)) :: after_record total i)
     = requests (events w)
  /\ (forall (tokens : list token) (c0 : counters) (i0 : Z) (w0 : world)
        (c1 : counters) (w1 : world),
        main_loop bracketed_host_ok net total c0 i0 tokens w0 = (Ok c1, w1) ->
        skipped c1
        = skipped c0
          + Z.of_nat (length (List.filter (fun t => negb (truthy (logoUrl t)))
                                tokens))).
Proof.
  intros Hno.
  assert (Ht : truthy (logoUrl t) = false) by (destruct Hno as [->| ->]; reflexivity).
  split; [|split].
  - rewrite process_token_eq, Ht. simpl. rewrite <- app_assoc. reflexivity.
  - change (Print (MsgNoLogo (symbol t)) :: after_record total i)
      with ([Print (MsgNoLogo (symbol t))] ++ after_record total i).
    rewrite app_assoc, requests_after_record, requests_app. apply app_nil_r.
  - intros tokens c0 i0 w0 c1 w1. apply main_loop_skipped.
Qed.

Lemma process_token_no_logo_witness :
  process_token any_host net_broken_body 3 (Counters 1 0 0) 1 (Token "BBB" (Some ""))
    empty_world
  = (Ok (Counters 1 1 0),
     World ∅ [Print (MsgNoLogo "BBB"); Sleep 300]).
Proof.
  apply (process_token_no_logo any_host net_broken_body 3 (Counters 1 0 0) 1
           (Token "BBB" (Some "")) empty_world).
  right. reflexivity.
Defined.

(** ** The fetcher called without a URL *)

(** C10.  Called with no URL or an empty one, the fetcher prints one line
    and returns false; the directory and the log of requests are as before.
    The bookkeeping around the call counts such a result as failed.  That
    bookkeeping never changes the counter of skipped records, which moves
    only for a record that the orchestrator's own test finds without URL. *)
Theorem download_file_no_url (bracketed_host_ok : string -> bool)
  (net : network) (url : option string) (filename : string) (c : counters)
  (w : world) :
  truthy url = false ->
  download_file bracketed_host_ok net url filename w
  = (Ok false, World (files w) (events w ++ [Print (MsgSkipNoUrl filename)]))
  /\ requests (events w ++ [Print (MsgSkipNoUrl filename)]) = requests (events w)
  /\ fetch_and_count bracketed_host_ok net c url filename w
     = (Ok (Counters (downloaded c) (skipped c) (failed c + 1)),
        World (files w) (events w ++ [Print (MsgSkipNoUrl filename)]))
  /\ (forall (c0 : counters) (url' : option string) (filename' : string)
        (w0 : world) (c1 : counters) (w1 : world),
        fetch_and_count bracketed_host_ok net c0 url' filename' w0 = (Ok c1, w1) ->
        skipped c1 = skipped c0)
  /\ (forall (total : Z) (c0 : counters) (i : Z) (t : token) (w0 : world)
        (c1 : counters) (w1 : world),
        process_token bracketed_host_ok net total c0 i t w0 = (Ok c1, w1) ->
        skipped c1 = skipped c0 + (if truthy (logoUrl t) then 0 else 1)).
Proof.
  intros Ht. split; [|split; [|split; [|split]]].
  - apply download_file_falsy, Ht.
  - rewrite requests_app. apply app_nil_r.
  - rewrite fetch_and_count_eq, (download_file_falsy _ _ url filename w Ht).
    reflexivity.
  - intros c0 url' filename' w0 c1 w1. rewrite fetch_and_count_eq.
    destruct (download_file _ _ _ _ _) as [[[|]|e] w2]; intros [= <- <-]; reflexivity.
  - intros total c0 i t w0 c1 w1. rewrite process_token_eq.
    destruct (truthy (logoUrl t)).
    + rewrite fetch_and_count_eq.
      destruct (download_file _ _ _ _ _) as [[[|]|e] w2]; intros [= <- <-];
        simpl; lia.
    + intros [= <- <-]. reflexivity.
Qed.

Lemma download_file_no_url_witness :
  download_file any_host net_broken_body None "AAA" empty_world
  = (Ok false, World ∅ [Print (MsgSkipNoUrl "AAA")]).
Proof.
  apply (download_file_no_url any_host net_broken_body None "AAA" (Counters 0 0 0)
           empty_world).
  reflexivity.
Defined.

(** ** Counting *)

(** C9.  Each iteration of the loop that completes adds one to exactly one
    of the three counters.  From counters at zero, when the loop over the
    first [n] records completes, the counters add up to the number of records
    processed and none is negative; and the loop over any shorter prefix has
    completed with counters that are not larger. *)
Theorem counters_invariant (bracketed_host_ok : string -> bool) (net : network)
  (total : Z) (tokens : list token) (n : nat) (w : world) (c : counters)
  (w' : world) :
  main_loop bracketed_host_ok net total (Counters 0 0 0) 0 (take n tokens) w
  = (Ok c, w') ->
  processed c = Z.of_nat (Nat.min n (length tokens))
  /\ 0 <= downloaded c /\ 0 <= skipped c /\ 0 <= failed c
  /\ (forall m : nat, (m <= n)%nat ->
      exists cm wm,
        main_loop bracketed_host_ok net total (Counters 0 0 0) 0 (take m tokens) w
        = (Ok cm, wm)
        /\ downloaded cm <= downloaded c /\ skipped cm <= skipped c
        /\ failed cm <= failed c)
  /\ (forall (c0 : counters) (i : Z) (t : token) (w0 : world) (c1 : counters)
        (w1 : world),
        process_token bracketed_host_ok net total c0 i t w0 = (Ok c1, w1) ->
        c1 = Counters (downloaded c0 + 1) (skipped c0) (failed c0)
        \/ c1 = Counters (downloaded c0) (skipped c0 + 1) (failed c0)
        \/ c1 = Counters (downloaded c0) (skipped c0) (failed c0 + 1)).
Proof.
  intros Hrun.
  pose proof (main_loop_counts _ _ _ _ _ _ _ _ _ Hrun) as (Hd & Hs & Hf & Hsum).
  simpl in Hd, Hs, Hf. unfold processed in Hsum at 2. simpl in Hsum.
  rewrite length_take in Hsum.
  split; [exact Hsum|]. repeat (split; [assumption|]). split.
  - intros m Hm.
    assert (Hsplit : take n tokens = take m tokens ++ drop m (take n tokens)).
    { rewrite <- (take_drop m (take n tokens)) at 1.
      rewrite take_take. replace (m `min` n)%nat with m by lia. reflexivity. }
    rewrite Hsplit, main_loop_app in Hrun.
    destruct (main_loop bracketed_host_ok net total (Counters 0 0 0) 0 (take m tokens) w)
      as [[cm|e] wm]; [|discriminate Hrun].
    exists cm, wm. split; [reflexivity|].
    pose proof (main_loop_counts _ _ _ _ _ _ _ _ _ Hrun) as (Hd' & Hs' & Hf' & _).
    auto.
  - intros c0 i t w0 c1 w1. apply process_token_counts.
Qed.

Lemma counters_invariant_witness :
  processed (Counters 1 1 0) = Z.of_nat (Nat.min 2 (length three_tokens)).
Proof.
  apply (counters_invariant any_host (net_good_bad []) 3 three_tokens 2 empty_world
           (Counters 1 1 0)
           (snd (main_loop any_host (net_good_bad []) 3 (Counters 0 0 0) 0
                   (take 2 three_tokens) empty_world))).
  vm_compute. reflexivity.
Defined.

(** ** Errors of single records *)




(** ** End to end *)

(** C7.  For the three records AAA (good URL), BBB (empty URL) and CCC (bad
    URL), on a network that answers every request for the good URL with
    status 200 and a body and every request for the bad URL with the error
    404, a run from an empty directory ends with downloaded = 1,
    skipped = 1 and failed = 1, and the directory holds the one file
    AAA.png, with that body. *)
Theorem main_three_tokens (bracketed_host_ok : string -> bool) (net : network)
  (body : list byte) :
  (forall log ua,
     net log (make_request "http://good/a.png" ua) = Response 200 (ReadOk body)) ->
  (forall log ua,
     net log (make_request "http://bad/c.png" ua) = HTTPError 404) ->
  exists w',
    main bracketed_host_ok net three_tokens empty_world = (Ok (Counters 1 1 1), w')
    /\ files w' = {[ "AAA.png"%string := body ]}
    /\ exists evs, events w' = evs ++ summary_events (Counters 1 1 1) 1.
Proof.
  intros Hgood Hbad.
  rewrite (main_ext bracketed_host_ok net (net_good_bad body) three_tokens empty_world).
  2:{ intros t u [<-|[<-|[<-|[]]]] [= <-] Hu log ua;
        [rewrite Hgood|contradiction|rewrite Hbad]; reflexivity. }
  rewrite main_eq.
  match goal with |- context [main_loop ?a ?b ?c ?d ?e ?f ?g] =>
    remember (main_loop a b c d e f g) as r eqn:Hr end.
  vm_compute in Hr. subst r. cbv iota beta.
  eexists. split; [reflexivity|]. split; [vm_compute; reflexivity|].
  eexists. reflexivity.
Qed.

Lemma main_three_tokens_witness :
  exists w',
    main any_host (net_good_bad ["089"%byte]) three_tokens empty_world
    = (Ok (Counters 1 1 1), w')
    /\ files w' = {[ "AAA.png"%string := ["089"%byte] ]}
    /\ exists evs, events w' = evs ++ summary_events (Counters 1 1 1) 1.
Proof.
  apply (main_three_tokens any_host (net_good_bad ["089"%byte]) ["089"%byte]);
    intros log ua; reflexivity.
Defined.

(** * Further properties of the code *)

(** ** More on strings *)

Lemma app_nil_r_str (s : string) : s +:+ EmptyString = s.
Proof. induction s as [|a s IH]; [reflexivity|]. rewrite app_cons, IH. reflexivity. Qed.

Lemma take_drop_str (n : nat) (s : string) : Str.take n s +:+ Str.drop n s = s.
Proof.
  revert s. induction n as [|n IH]; intros s; [reflexivity|].
  destruct s as [|a s]; [reflexivity|]. simpl. rewrite app_cons, IH. reflexivity.
Qed.

Lemma all_app (p : ascii -> bool) (s t : string) :
  Str.all p (s +:+ t) = Str.all p s && Str.all p t.
Proof.
  induction s as [|a s IH]; [reflexivity|].
  rewrite app_cons. simpl. rewrite IH. apply andb_assoc.
Qed.

Lemma map_app_str (f : ascii -> ascii) (s t : string) :
  Str.map f (s +:+ t) = Str.map f s +:+ Str.map f t.
Proof.
  induction s as [|a s IH]; [reflexivity|].
  rewrite app_cons. simpl. rewrite IH. reflexivity.
Qed.

Lemma length_map_str (f : ascii -> ascii) (s : string) :
  String.length (Str.map f s) = String.length s.
Proof. induction s as [|a s IH]; simpl; [reflexivity|]. rewrite IH. reflexivity. Qed.

Lemma find_lower_bound (c : ascii) (s : string) : -1 <= Str.find c s.
Proof.
  induction s as [|a s IH]; simpl; [lia|].
  destruct (Ascii.eqb a c); [lia|].
  destruct (Str.find c s <? 0) eqn:E; [lia|]. apply Z.ltb_ge in E. lia.
Qed.

(** [find] and [rfind] miss a character together. *)
Lemma find_rfind_absent (c : ascii) (s : string) :
  Str.find c s = -1 <-> Str.rfind c s = -1.
Proof.
  induction s as [|a s IH]; simpl; [tauto|].
  pose proof (rfind_lower_bound c s) as Hlo.
  pose proof (find_lower_bound c s) as Hlo'.
  assert (Hboth : (Str.find c s = -1 /\ Str.rfind c s = -1)
                  \/ (0 <= Str.find c s /\ 0 <= Str.rfind c s)).
  { destruct (Z.eq_dec (Str.find c s) (-1)) as [Hf|Hf].
    - left. split; [exact Hf|apply IH, Hf].
    - right. split; [lia|].
      destruct (Z.eq_dec (Str.rfind c s) (-1)) as [Hr|Hr]; [|lia].
      apply IH in Hr. contradiction. }
  destruct (Ascii.eqb a c);
    destruct (Str.find c s <? 0) eqn:Ef; destruct (0 <=? Str.rfind c s) eqn:Er;
    try apply Z.ltb_lt in Ef; try apply Z.ltb_ge in Ef;
    try apply Z.leb_le in Er; try apply Z.leb_gt in Er; lia.
Qed.

Lemma contains_rfind (c : ascii) (s : string) :
  Str.contains c s = false <-> Str.rfind c s = -1.
Proof.
  unfold Str.contains. rewrite <- find_rfind_absent.
  pose proof (find_lower_bound c s).
  destruct (0 <=? Str.find c s) eqn:E;
    [apply Z.leb_le in E|apply Z.leb_gt in E]; split; intros;
    try lia; try discriminate; reflexivity.
Qed.

(** A character that fails a test is in no string that passes it. *)
Lemma all_contains (p : ascii -> bool) (c : ascii) (s : string) :
  p c = false -> Str.all p s = true -> Str.contains c s = false.
Proof.
  intros Hc Hall. apply contains_rfind.
  induction s as [|a s IH]; [reflexivity|].
  simpl in Hall. apply andb_true_iff in Hall as [Ha Hs].
  simpl. rewrite (IH Hs). simpl.
  destruct (Ascii.eqb_spec a c) as [->|]; [congruence|reflexivity].
Qed.

(** ** More on the sanitizer *)

Lemma sanitize_all_safe (s : string) :
  Str.all safe_char (sanitize_filename s) = true.
Proof.
  unfold sanitize_filename.
  induction s as [|a s IH]; simpl; [reflexivity|].
  rewrite sanitize_char_safe, IH. reflexivity.
Qed.

Lemma sanitize_safe_id (s : string) :
  Str.all safe_char s = true -> sanitize_filename s = s.
Proof.
  unfold sanitize_filename.
  induction s as [|a s IH]; simpl; [reflexivity|].
  intros [Ha Hs]%andb_true_iff. rewrite Ha, (IH Hs). reflexivity.
Qed.

(** X1.  Sanitizing twice is sanitizing once, and the sanitizer works
    through a concatenation part by part. *)
Theorem sanitize_filename_idempotent (s t : string) :
  sanitize_filename (sanitize_filename s) = sanitize_filename s
  /\ sanitize_filename (s +:+ t) = sanitize_filename s +:+ sanitize_filename t.
Proof.
  split.
  - apply sanitize_safe_id, sanitize_all_safe.
  - apply map_app_str.
Qed.

(** ** More on [os.path.splitext] *)

Lemma splitext_scan_cases (p : string) (dotIndex filenameIndex : Z) (n : nat) :
  splitext_scan p dotIndex filenameIndex n = (p, EmptyString)
  \/ splitext_scan p dotIndex filenameIndex n
     = (Str.upto dotIndex p, Str.from dotIndex p).
Proof.
  revert filenameIndex. induction n as [|n IH]; intros k; simpl; [auto|].
  destruct (negb _); auto.
Qed.

Lemma split_last_tail_absent (c d : ascii) (s b t : string) :
  split_last d s = Some (b, t) -> Str.rfind c s = -1 -> Str.rfind c t = -1.
Proof.
  intros Hsplit Hs. destruct (split_last_Some _ _ _ _ Hsplit) as (-> & _ & _).
  rewrite rfind_app in Hs.
  destruct (0 <=? Str.rfind c (String d t)) eqn:E.
  - apply Z.leb_le in E. lia.
  - apply Z.leb_gt in E. simpl in E.
    pose proof (rfind_lower_bound c t).
    destruct (0 <=? Str.rfind c t) eqn:E2; [apply Z.leb_le in E2; lia|].
    apply Z.leb_gt in E2. lia.
Qed.

Lemma final_segment_no_slash (path : string) :
  Str.rfind "/" (final_segment path) = -1.
Proof.
  unfold final_segment. destruct (split_last "/" path) as [[dir seg]|] eqn:E.
  - apply (split_last_Some _ _ _ _ E).
  - apply split_last_None, E.
Qed.

(** X2.  [splitext] cuts the path in two without losing anything: the root
    followed by the extension is the path.  The extension is empty, or it
    begins with a dot and has no other dot; it never has a slash. *)
Theorem splitext_rejoin (path : string) :
  fst (splitext path) +:+ snd (splitext path) = path
  /\ Str.contains "/" (snd (splitext path)) = false
  /\ (snd (splitext path) = EmptyString
      \/ exists e, snd (splitext path) = String "." e
                   /\ Str.contains "." e = false).
Proof.
  split; [|split].
  - unfold splitext. destruct (_ <? _); [|apply app_nil_r_str].
    destruct (splitext_scan_cases path (Str.rfind "." path) (Str.rfind "/" path + 1)
                (Z.to_nat (Str.rfind "." path - (Str.rfind "/" path + 1))))
      as [-> | ->]; simpl; [apply app_nil_r_str|apply take_drop_str].
  - rewrite splitext_segment. unfold segment_extension.
    pose proof (final_segment_no_slash path) as Hseg.
    destruct (split_last "." (final_segment path)) as [[stem e]|] eqn:E; [|reflexivity].
    destruct (Str.all is_dot stem); [reflexivity|].
    apply contains_rfind. simpl.
    rewrite (split_last_tail_absent "/" "." _ _ _ E Hseg). reflexivity.
  - rewrite splitext_segment. unfold segment_extension.
    destruct (split_last "." (final_segment path)) as [[stem e]|] eqn:E; [|auto].
    destruct (Str.all is_dot stem); [auto|]. right. exists e. split; [reflexivity|].
    apply contains_rfind. apply (split_last_Some _ _ _ _ E).
Qed.

(** ** More on the extension resolver *)

(** A character whose lower case is in the safe set is in the safe set. *)
Lemma safe_char_of_lower (c : ascii) :
  safe_char (Str.lower_char c) = true -> safe_char c = true.
Proof.
  destruct c as [[] [] [] [] [] [] [] []]; vm_compute; intros H; exact H.
Qed.

Lemma all_safe_of_lower (s : string) :
  Str.all safe_char (Str.lower s) = true -> Str.all safe_char s = true.
Proof.
  unfold Str.lower. induction s as [|a s IH]; simpl; [reflexivity|].
  intros [Ha Hs]%andb_true_iff.
  rewrite (safe_char_of_lower a Ha), (IH Hs). reflexivity.
Qed.

Lemma known_extension_shape (ext : string) :
  In (Str.lower ext) known_extensions ->
  Str.all safe_char ext = true /\ (4 <= String.length ext)%nat.
Proof.
  intros Hin. split.
  - apply all_safe_of_lower.
    repeat (destruct Hin as [<-|Hin]; [reflexivity|]). destruct Hin.
  - rewrite <- (length_map_str Str.lower_char ext). fold (Str.lower ext).
    repeat (destruct Hin as [<-|Hin]; [simpl; lia|]). destruct Hin.
Qed.

Lemma get_extension_from_url_known_aux (bracketed_host_ok : string -> bool)
  (url ext : string) :
  get_extension_from_url bracketed_host_ok url = Ok ext ->
  In (Str.lower ext) known_extensions.
Proof.
  unfold get_extension_from_url.
  destruct (urlparse_path bracketed_host_ok url) as [path|e]; [|discriminate].
  destruct (Str.is_empty _).
  - intros [= <-]. left. reflexivity.
  - destruct (existsb _ known_extensions) eqn:Hex; simpl.
    + intros [= <-]. apply existsb_exists in Hex as (x & Hin & Hx).
      apply String.eqb_eq in Hx. rewrite Hx. exact Hin.
    + intros [= <-]. left. reflexivity.
Qed.

(** X3.  Whatever the URL, an extension that the resolver returns is, in
    lower case, one of the six known extensions; it is made of characters
    of [A-Za-z0-9\-_.] and is at least four characters long. *)
Theorem get_extension_from_url_known (bracketed_host_ok : string -> bool)
  (url ext : string) :
  get_extension_from_url bracketed_host_ok url = Ok ext ->
  In (Str.lower ext) known_extensions
  /\ Str.all safe_char ext = true
  /\ (4 <= String.length ext)%nat.
Proof.
  intros He.
  pose proof (get_extension_from_url_known_aux _ _ _ He) as Hin.
  split; [exact Hin|]. apply known_extension_shape, Hin.
Qed.

Lemma get_extension_from_url_known_witness :
  In (Str.lower ".JPEG") known_extensions.
Proof.
  apply (get_extension_from_url_known any_host "https://x.com/logos/eth.JPEG" ".JPEG").
  reflexivity.
Defined.

(** X4.  The name of the file that a fetch writes is made of characters of
    [A-Za-z0-9\-_.] only, whatever the symbol and the URL: it has no slash,
    so the file is an entry of the output directory itself; and it is at
    least four characters long, so it is neither [.] nor [..]. *)
Theorem destination_safe (bracketed_host_ok : string -> bool)
  (url filename name : string) :
  destination bracketed_host_ok url filename = Ok name ->
  Str.all safe_char name = true
  /\ Str.contains "/" name = false
  /\ (4 <= String.length name)%nat.
Proof.
  unfold destination.
  destruct (get_extension_from_url bracketed_host_ok url) as [ext|e] eqn:He;
    [|discriminate].
  intros [= <-].
  destruct (known_extension_shape ext
              (get_extension_from_url_known_aux bracketed_host_ok url ext He))
    as [Hsafe Hlen].
  assert (Hall : Str.all safe_char (sanitize_filename filename +:+ ext) = true).
  { rewrite all_app, sanitize_all_safe, Hsafe. reflexivity. }
  split; [exact Hall|]. split.
  - apply (all_contains safe_char); [reflexivity|exact Hall].
  - rewrite length_app_str. lia.
Qed.

Lemma destination_safe_witness :
  Str.all safe_char "A_B.png" = true
  /\ Str.contains "/" "A_B.png" = false
  /\ (4 <= String.length "A_B.png")%nat.
Proof.
  apply (destination_safe any_host "https://x.com/logos/ab.exe?v=1" "A/B" "A_B.png").
  reflexivity.
Defined.

(** ** More on the fetcher *)

Lemma destination_inv (bracketed_host_ok : string -> bool)
  (url filename name : string) :
  destination bracketed_host_ok url filename = Ok name <->
  exists ext, get_extension_from_url bracketed_host_ok url = Ok ext
              /\ name = sanitize_filename filename +:+ ext.
Proof.
  unfold destination.
  destruct (get_extension_from_url bracketed_host_ok url) as [ext|e]; split.
  - intros [= <-]. eauto.
  - intros (ext' & [= <-] & ->). reflexivity.
  - discriminate.
  - intros (ext' & He & _). discriminate He.
Qed.

Section FetcherMore.

Variable bracketed_host_ok : string -> bool.
Variable net : network.

(** What a fetch can do to the directory: nothing, or put one content at
    its destination, which did not exist. *)
Lemma download_file_files (url : option string) (filename : string)
  (w : world) (r : result bool) (w' : world) :
  download_file bracketed_host_ok net url filename w = (r, w') ->
  files w' = files w
  \/ exists u name data,
      url = Some u /\ u <> EmptyString
      /\ destination bracketed_host_ok u filename = Ok name
      /\ files w !! name = None
      /\ files w' = <[name := data]> (files w)
      /\ (r = Ok true \/ data = []).
Proof.
  intros Hrun. destruct (truthy url) eqn:Ht.
  - destruct (truthy_inv url Ht) as (u & -> & Hu).
    destruct (get_extension_from_url bracketed_host_ok u) as [ext|e] eqn:He.
    + assert (Hd : destination bracketed_host_ok u filename
                   = Ok (sanitize_filename filename +:+ ext)).
      { apply destination_inv. eauto. }
      destruct (files w !! (sanitize_filename filename +:+ ext)) as [d|] eqn:Hl.
      * rewrite (download_file_present _ _ u filename ext w Hu He) in Hrun
          by (rewrite Hl; eauto).
        injection Hrun as <- <-. left. reflexivity.
      * rewrite (download_file_absent _ _ u filename ext w Hu He Hl) in Hrun.
        destruct (attempts_spec net u (sanitize_filename filename +:+ ext)
                    user_agents 0
                    (World (files w)
                       (events w ++ [Print (MsgDownloading u
                                              (sanitize_filename filename +:+ ext))])))
          as (b & w2 & Hrun2 & Htrue & Hfalse).
        rewrite Hrun in Hrun2. injection Hrun2 as -> ->.
        simpl files in Htrue, Hfalse. destruct b.
        -- destruct (Htrue eq_refl) as (pre & o & post & d & _ & _ & _ & Hf & _).
           right. exists u, (sanitize_filename filename +:+ ext), d. auto 10.
        -- destruct (Hfalse eq_refl) as (_ & Hf & _).
           destruct (existsb yields_200 _); [|left; exact Hf].
           right. exists u, (sanitize_filename filename +:+ ext), []. auto 10.
    + rewrite (download_file_raises _ _ u filename e w Hu He) in Hrun.
      injection Hrun as <- <-. left. reflexivity.
  - rewrite (download_file_falsy _ _ url filename w Ht) in Hrun.
    injection Hrun as <- <-. left. reflexivity.
Qed.

(** A fetch that reports success leaves a file at its destination. *)
Lemma download_file_true_present (url : option string) (filename : string)
  (w w' : world) :
  download_file bracketed_host_ok net url filename w = (Ok true, w') ->
  exists u name,
    url = Some u /\ u <> EmptyString
    /\ destination bracketed_host_ok u filename = Ok name
    /\ is_Some (files w' !! name).
Proof.
  intros Hrun. destruct (truthy url) eqn:Ht.
  - destruct (truthy_inv url Ht) as (u & -> & Hu).
    destruct (get_extension_from_url bracketed_host_ok u) as [ext|e] eqn:He.
    + assert (Hd : destination bracketed_host_ok u filename
                   = Ok (sanitize_filename filename +:+ ext)).
      { apply destination_inv. eauto. }
      exists u, (sanitize_filename filename +:+ ext).
      repeat (split; [auto; fail|]).
      destruct (download_file_files _ _ _ _ _ Hrun)
        as [Hf|(u' & name & d & [= <-] & _ & Hd' & _ & Hf & _)].
      * destruct (files w !! (sanitize_filename filename +:+ ext)) as [d|] eqn:Hl.
        -- rewrite Hf, Hl. eauto.
        -- rewrite (download_file_absent _ _ u filename ext w Hu He Hl) in Hrun.
           destruct (attempts_spec net u (sanitize_filename filename +:+ ext)
                       user_agents 0
                       (World (files w)
                          (events w ++ [Print (MsgDownloading u
                                                 (sanitize_filename filename +:+ ext))])))
             as (b & w2 & Hrun2 & Htrue & _).
           rewrite Hrun in Hrun2. injection Hrun2 as <- <-.
           destruct (Htrue eq_refl) as (pre & o & post & d & _ & _ & _ & Hf' & _).
           rewrite Hf', lookup_insert_eq. eauto.
      * rewrite Hd in Hd'. injection Hd' as <-.
        rewrite Hf, lookup_insert_eq. eauto.
    + rewrite (download_file_raises _ _ u filename e w Hu He) in Hrun.
      discriminate Hrun.
  - rewrite (download_file_falsy _ _ url filename w Ht) in Hrun.
    discriminate Hrun.
Qed.

(** X5.  A fetch never removes a file and never changes a file that
    exists: either it leaves the directory as it is, or it adds one file,
    at its destination, which did not exist.  So a fetch adds at most one
    file, and a file that was there keeps its content. *)
Theorem download_file_adds_one (url : option string) (filename : string)
  (w : world) (r : result bool) (w' : world) :
  download_file bracketed_host_ok net url filename w = (r, w') ->
  (files w' = files w
   \/ exists u name data,
       url = Some u
       /\ destination bracketed_host_ok u filename = Ok name
       /\ files w !! name = None
       /\ files w' = <[name := data]> (files w))
  /\ (forall p d, files w !! p = Some d -> files w' !! p = Some d)
  /\ (size (files w') <= S (size (files w)))%nat.
Proof.
  intros Hrun.
  destruct (download_file_files _ _ _ _ _ Hrun)
    as [Hf|(u & name & d & Hu & _ & Hd & Hl & Hf & _)].
  - split; [left; exact Hf|]. rewrite Hf. split; [auto|lia].
  - split; [right; exists u, name, d; auto|]. rewrite Hf. split.
    + intros p d' Hp. rewrite lookup_insert_ne; [exact Hp|]. congruence.
    + rewrite (map_size_insert_None _ _ _ Hl). lia.
Qed.

(** X6.  The first file at a name wins.  After a fetch that reported
    success, a fetch for any symbol and URL with the same destination (two
    symbols may sanitize to the same name) reports success at once,
    whatever the network: it makes no request and leaves the directory,
    and so the file of the first fetch, as it is. *)
Theorem download_file_collision (net' : network) (url : option string)
  (filename url' filename' name : string) (w w1 : world) :
  download_file bracketed_host_ok net url filename w = (Ok true, w1) ->
  (forall u, url = Some u -> destination bracketed_host_ok u filename = Ok name) ->
  url' <> EmptyString ->
  destination bracketed_host_ok url' filename' = Ok name ->
  download_file bracketed_host_ok net' (Some url') filename' w1
  = (Ok true, World (files w1) (events w1 ++ [Print (MsgAlreadyExists name)]))
  /\ requests (events w1 ++ [Print (MsgAlreadyExists name)]) = requests (events w1).
Proof.
  intros Hrun Hsame Hu' Hd'.
  destruct (download_file_true_present _ _ _ _ Hrun) as (u & name0 & -> & _ & Hd & Hin).
  rewrite (Hsame u eq_refl) in Hd. injection Hd as <-.
  apply destination_inv in Hd' as (ext' & He' & ->).
  split; [apply download_file_present; assumption|].
  rewrite requests_app. apply app_nil_r.
Qed.

(** X7.  An empty file left by a failed fetch is never repaired.  When a
    fetch fails although some attempt got a response with status 200, the
    destination is an empty file afterwards; and every later fetch for the
    same URL and symbol reports success without any request and leaves the
    file empty. *)
Theorem download_file_empty_file_stays (net' : network) (url filename : string)
  (w w1 : world) :
  url <> EmptyString ->
  download_file bracketed_host_ok net (Some url) filename w = (Ok false, w1) ->
  Exists (fun o => yields_200 o = true)
    (outcomes net (requests (events w)) url user_agents) ->
  exists name w2,
    destination bracketed_host_ok url filename = Ok name
    /\ files w !! name = None
    /\ files w1 !! name = Some []
    /\ download_file bracketed_host_ok net' (Some url) filename w1 = (Ok true, w2)
    /\ files w2 = files w1
    /\ requests (events w2) = requests (events w1).
Proof.
  intros Hu Hrun Hex.
  destruct (get_extension_from_url bracketed_host_ok url) as [ext|e] eqn:He.
  2:{ rewrite (download_file_raises _ _ url filename e w Hu He) in Hrun.
      discriminate Hrun. }
  destruct (files w !! (sanitize_filename filename +:+ ext)) as [d|] eqn:Hl.
  { rewrite (download_file_present _ _ url filename ext w Hu He) in Hrun
      by (rewrite Hl; eauto).
    discriminate Hrun. }
  rewrite (download_file_absent _ _ url filename ext w Hu He Hl) in Hrun.
  destruct (attempts_spec net url (sanitize_filename filename +:+ ext)
              user_agents 0
              (World (files w)
                 (events w ++ [Print (MsgDownloading url
                                        (sanitize_filename filename +:+ ext))])))
    as (b & w2 & Hrun2 & _ & Hfalse).
  rewrite Hrun in Hrun2. injection Hrun2 as <- <-.
  cbn [events files] in Hfalse.
  replace (requests (events w ++ [Print (MsgDownloading url
                                          (sanitize_filename filename +:+ ext))]))
    with (requests (events w)) in Hfalse
    by (rewrite requests_app; symmetry; apply app_nil_r).
  destruct (Hfalse eq_refl) as (_ & Hf & _).
  assert (Hopen : existsb yields_200
                    (outcomes net (requests (events w)) url user_agents) = true).
  { apply existsb_exists. apply Exists_exists in Hex as (o & Hin & Ho).
    exists o. split; [apply list_elem_of_In; exact Hin|exact Ho]. }
  rewrite Hopen in Hf.
  assert (Hnow : files w1 !! (sanitize_filename filename +:+ ext) = Some [])
    by (rewrite Hf; apply lookup_insert_eq).
  exists (sanitize_filename filename +:+ ext). eexists.
  split; [apply destination_inv; eauto|]. split; [exact Hl|]. split; [exact Hnow|].
  split; [apply (download_file_present _ net' url filename ext w1 Hu He);
          rewrite Hnow; eauto|].
  simpl. split; [reflexivity|]. rewrite requests_app. apply app_nil_r.
Qed.

End FetcherMore.

Lemma download_file_adds_one_witness :
  let w' := snd (download_file any_host (net_good_bad ["089"%byte])
                   (Some "http://good/a.png"%string) "AAA" empty_world) in
  (files w' = files empty_world
   \/ exists u name data,
       Some "http://good/a.png"%string = Some u
       /\ destination any_host u "AAA" = Ok name
       /\ files empty_world !! name = None
       /\ files w' = <[name := data]> (files empty_world))
  /\ (forall p d, files empty_world !! p = Some d -> files w' !! p = Some d)
  /\ (size (files w') <= S (size (files empty_world)))%nat.
Proof.
  intros w'.
  apply (download_file_adds_one any_host (net_good_bad ["089"%byte])
           (Some "http://good/a.png"%string) "AAA" empty_world (Ok true) w').
  vm_compute. reflexivity.
Defined.

Lemma download_file_collision_witness :
  let w1 := snd (download_file any_host (net_good_bad ["089"%byte])
                   (Some "http://good/a.png"%string) "A/B" empty_world) in
  download_file any_host net_broken_body (Some "http://other/b.png"%string) "A B" w1
  = (Ok true, World (files w1) (events w1 ++ [Print (MsgAlreadyExists "A_B.png")]))
  /\ requests (events w1 ++ [Print (MsgAlreadyExists "A_B.png")])
     = requests (events w1).
Proof.
  intros w1.
  apply (download_file_collision any_host (net_good_bad ["089"%byte]) net_broken_body
           (Some "http://good/a.png"%string) "A/B" "http://other/b.png" "A B"
           "A_B.png" empty_world w1).
  - vm_compute. reflexivity.
  - intros u [= <-]. reflexivity.
  - discriminate.
  - reflexivity.
Defined.

Lemma download_file_empty_file_stays_witness :
  let w1 := snd (download_file any_host net_broken_body
                   (Some "http://h/a.png"%string) "A" empty_world) in
  exists name w2,
    destination any_host "http://h/a.png" "A" = Ok name
    /\ files empty_world !! name = None
    /\ files w1 !! name = Some []
    /\ download_file any_host (net_good_bad ["089"%byte])
         (Some "http://h/a.png"%string) "A" w1 = (Ok true, w2)
    /\ files w2 = files w1
    /\ requests (events w2) = requests (events w1).
Proof.
  intros w1.
  apply (download_file_empty_file_stays any_host net_broken_body
           (net_good_bad ["089"%byte]) "http://h/a.png" "A" empty_world w1).
  - discriminate.
  - vm_compute. reflexivity.
  - left. reflexivity.
Defined.

Section FetcherTrace.

Variable bracketed_host_ok : string -> bool.
Variable net : network.




End FetcherTrace.


(** ** More on the orchestrator *)

Section OrchestratorMore.

Variable bracketed_host_ok : string -> bool.
Variable net : network.






End OrchestratorMore.



Section Rerun.

Variable bracketed_host_ok : string -> bool.
Variable net : network.

(** When the files of all the records with a logo URL are there, the loop
    counts each such record as downloaded and touches neither the directory
    nor the network. *)
Lemma main_loop_all_present (total : Z) (fs : gmap string (list byte))
  (tokens : list token) :
  (forall t, In t tokens -> truthy (logoUrl t) = true ->
     exists u name,
       logoUrl t = Some u
       /\ destination bracketed_host_ok u (symbol t) = Ok name
       /\ is_Some (fs !! name)) ->
  forall (c : counters) (i : Z) (evs : list event),
  exists evs',
    main_loop bracketed_host_ok net total c i tokens (World fs evs)
    = (Ok (Counters
             (downloaded c
              + Z.of_nat (length (List.filter (fun t => truthy (logoUrl t)) tokens)))
             (skipped c
              + Z.of_nat (length (List.filter (fun t => negb (truthy (logoUrl t)))
                                    tokens)))
             (failed c)),
       World fs evs')
    /\ requests evs' = requests evs.
Proof.
  induction tokens as [|t tokens IH]; intros Hall c i evs.
  - exists evs. simpl. unfold ret. rewrite !Z.add_0_r. destruct c. auto.
  - simpl main_loop. unfold bind. rewrite process_token_eq.
    simpl List.filter.
    destruct (truthy (logoUrl t)) eqn:Ht; simpl negb; cbv iota.
    + destruct (Hall t (or_introl eq_refl) Ht) as (u & name & Hu & Hd & Hin).
      apply destination_inv in Hd as (ext & He & ->).
      assert (Hne : u <> EmptyString).
      { intros ->. rewrite Hu in Ht. discriminate Ht. }
      rewrite fetch_and_count_eq, Hu.
      rewrite (download_file_present _ _ u (symbol t) ext (World fs evs) Hne He Hin).
      cbn [files events].
      match goal with |- context [main_loop _ _ _ ?c1 _ _ (World fs ?evs1)] =>
        destruct (IH (fun t0 Hin0 => Hall t0 (or_intror Hin0)) c1 (i + 1) evs1)
          as (evs' & Hrun & Hreq) end.
      exists evs'. rewrite Hrun. split.
      * simpl. f_equal. f_equal. f_equal; lia.
      * rewrite Hreq, requests_after_record, requests_app. apply app_nil_r.
    + cbn [files events].
      match goal with |- context [main_loop _ _ _ ?c1 _ _ (World fs ?evs1)] =>
        destruct (IH (fun t0 Hin0 => Hall t0 (or_intror Hin0)) c1 (i + 1) evs1)
          as (evs' & Hrun & Hreq) end.
      exists evs'. rewrite Hrun. split.
      * simpl. f_equal. f_equal. f_equal; lia.
      * rewrite Hreq, requests_after_record, requests_app. apply app_nil_r.
Qed.

(** When the loop ends without a failure, the file of every record with a
    logo URL is there, and the records are counted as downloaded or
    skipped. *)
Lemma main_loop_no_failure (total : Z) (tokens : list token) :
  forall (c : counters) (i : Z) (w : world) (c' : counters) (w' : world),
  main_loop bracketed_host_ok net total c i tokens w = (Ok c', w') ->
  failed c' = failed c ->
  (forall t, In t tokens -> truthy (logoUrl t) = true ->
     exists u name,
       logoUrl t = Some u
       /\ destination bracketed_host_ok u (symbol t) = Ok name
       /\ is_Some (files w' !! name))
  /\ downloaded c'
     = downloaded c
       + Z.of_nat (length (List.filter (fun t => truthy (logoUrl t)) tokens))
  /\ skipped c'
     = skipped c
       + Z.of_nat (length (List.filter (fun t => negb (truthy (logoUrl t))) tokens)).
Proof.
  induction tokens as [|t tokens IH]; intros c i w c' w'.
  - intros [= <- <-] _. simpl. split; [intros t []|lia].
  - simpl main_loop. unfold bind.
    destruct (process_token bracketed_host_ok net total c i t w)
      as [[c1|e] w1] eqn:Hstep; [|discriminate].
    intros Hrest Hfailed.
    pose proof (main_loop_counts _ _ _ _ _ _ _ _ _ Hrest) as (_ & _ & Hf1 & _).
    pose proof (main_loop_effect _ _ _ _ _ _ _ _ _ Hrest) as (Hsub & _).
    pose proof (process_token_counts _ _ _ _ _ _ _ _ _ Hstep) as Hcases.
    assert (Hf : failed c1 = failed c).
    { destruct Hcases as [->|[->| ->]]; simpl in *; lia. }
    rewrite <- Hf in Hfailed.
    destruct (IH _ _ _ _ _ Hrest Hfailed) as (Hfiles & Hd & Hs).
    rewrite process_token_eq in Hstep. simpl List.filter.
    destruct (truthy (logoUrl t)) eqn:Ht; simpl negb; cbv iota.
    + rewrite fetch_and_count_eq in Hstep.
      destruct (download_file bracketed_host_ok net (logoUrl t) (symbol t) w)
        as [[[|]|e] wd] eqn:Hrun; try discriminate Hstep;
        injection Hstep as <- <-; simpl in Hf; [|lia].
      simpl in Hd, Hs. split; [|simpl length; lia].
      intros t0 [<-|Hin] Ht0; [|apply Hfiles; assumption].
      destruct (download_file_true_present _ _ _ _ _ _ Hrun)
        as (u & name & Hu & _ & Hdest & [d Hd']).
      exists u, name. split; [exact Hu|]. split; [exact Hdest|].
      exists d. eapply lookup_weaken; [|exact Hsub]. exact Hd'.
    + injection Hstep as <- <-. simpl in Hd, Hs. split; [|simpl length; lia].
      intros t0 [<-|Hin] Ht0; [congruence|apply Hfiles; assumption].
Qed.

End Rerun.

(** X11.  Running the program again after a run in which nothing failed
    does nothing: whatever the network then does, the second run makes no
    request, leaves the directory as it is and ends with the same three
    counters. *)
Theorem main_rerun (bracketed_host_ok : string -> bool) (net net' : network)
  (token_list : list token) (w : world) (c : counters) (w1 : world) :
  main bracketed_host_ok net token_list w = (Ok c, w1) ->
  failed c = 0 ->
  exists w2,
    main bracketed_host_ok net' token_list w1 = (Ok c, w2)
    /\ files w2 = files w1
    /\ requests (events w2) = requests (events w1).
Proof.
  intros Hrun Hfailed. rewrite main_eq in Hrun.
  destruct (main_loop bracketed_host_ok net _ _ _ _ _) as [[c0|e] wl] eqn:Hloop;
    [|discriminate Hrun].
  injection Hrun as -> <-.
  destruct (main_loop_no_failure _ _ _ _ _ _ _ _ _ Hloop Hfailed)
    as (Hfiles & Hd & Hs).
  simpl in Hd, Hs.
  rewrite main_eq. cbn [files events].
  destruct (main_loop_all_present bracketed_host_ok net'
              (Z.of_nat (length token_list)) (files wl) token_list Hfiles
              (Counters 0 0 0) 0
              (events wl
               ++ summary_events c (Z.of_nat (size (files wl)))
               ++ [Print (MsgStart (Z.of_nat (length token_list)))]))
    as (evs' & Hrun2 & Hreq).
  rewrite <- app_assoc. rewrite Hrun2. simpl downloaded. simpl skipped. simpl failed.
  rewrite <- Hd, <- Hs, <- Hfailed.
  eexists. split; [destruct c; reflexivity|]. simpl. split; [reflexivity|].
  rewrite requests_app, Hreq, !requests_app. unfold summary_events. simpl.
  rewrite !app_nil_r. reflexivity.
Qed.

Lemma main_rerun_witness :
  let w1 := snd (main any_host (net_good_bad ["089"%byte])
                   [Token "AAA" (Some "http://good/a.png"); Token "BBB" None]
                   empty_world) in
  exists w2,
    main any_host net_broken_body
      [Token "AAA" (Some "http://good/a.png"); Token "BBB" None] w1
    = (Ok (Counters 1 1 0), w2)
    /\ files w2 = files w1
    /\ requests (events w2) = requests (events w1).
Proof.
  intros w1.
  apply (main_rerun any_host (net_good_bad ["089"%byte]) net_broken_body
           [Token "AAA" (Some "http://good/a.png"); Token "BBB" None]
           empty_world (Counters 1 1 0) w1).
  - vm_compute. reflexivity.
  - reflexivity.
Defined.

(** ** URLs that the parser accepts *)







